(** * signup-vista: the login and signup pages

    A shallow embedding of [src/pages/Login.tsx] (both variants of the
    login page) and [src/pages/Signup.tsx]: the validation schemas, the
    password strength estimator and the [onSubmit] handlers.

    JavaScript strings are sequences of UTF-16 code units; [length] counts
    code units and a regular expression without the [u] flag matches code
    units.  A string is therefore a [list N]. *)

From Stdlib Require Import List NArith Bool Arith Lia String Ascii.
From Stdlib Require Import Permutation.
Import ListNotations.

Local Open Scope N_scope.

(** ** JavaScript strings *)

Definition code_unit := N.
Definition jsstring := list code_unit.

(** An ASCII literal of the source, as its code units. *)
Definition js (s : string) : jsstring :=
  map N_of_ascii (list_ascii_of_string s).

Definition jsstring_eqb (a b : jsstring) : bool :=
  if list_eq_dec N.eq_dec a b then true else false.

(** WhiteSpace and LineTerminator of ECMAScript: what [\s] matches and
    what [String.prototype.trim] strips. *)
Definition is_js_space (c : code_unit) : bool :=
  ((9 <=? c) && (c <=? 13))
  || (c =? 32) || (c =? 160) || (c =? 5760)
  || ((8192 <=? c) && (c <=? 8202))
  || (c =? 8232) || (c =? 8233) || (c =? 8239) || (c =? 8287)
  || (c =? 12288) || (c =? 65279).

(** LineTerminator: what [.] does not match. *)
Definition is_line_terminator (c : code_unit) : bool :=
  (c =? 10) || (c =? 13) || (c =? 8232) || (c =? 8233).

Fixpoint trimStart (s : jsstring) : jsstring :=
  match s with
  | c :: s' => if is_js_space c then trimStart s' else s
  | [] => []
  end.

Definition trimEnd (s : jsstring) : jsstring := rev (trimStart (rev s)).

Definition trim (s : jsstring) : jsstring := trimEnd (trimStart s).

(** ** Regular expressions

    The fragment of the ECMAScript pattern language the pages use, with a
    backtracking matcher in continuation-passing style.  Only [test] is
    used, so only whether a match exists matters. *)

Inductive class_item :=
| CRange (lo hi : ascii)      (* a-z *)
| CChar (c : ascii)           (* a literal member *)
| CSpace.                     (* \s *)

Inductive regex :=
| RChar (c : ascii)                              (* a literal, also [\.] *)
| RAny                                           (* [.] *)
| RClass (negated : bool) (items : list class_item)
| RBol                                           (* [^] *)
| REol                                           (* [$] *)
| RSeq (r1 r2 : regex)
| RRepeat (min : nat) (r : regex)                (* [r*], [r+], [r{n,}] *)
| RNegLook (r : regex).                          (* [(?!r)] *)

Definition item_matches (i : class_item) (c : code_unit) : bool :=
  match i with
  | CRange lo hi => (N_of_ascii lo <=? c) && (c <=? N_of_ascii hi)
  | CChar a => c =? N_of_ascii a
  | CSpace => is_js_space c
  end.

Definition class_matches (negated : bool) (items : list class_item)
    (c : code_unit) : bool :=
  xorb negated (existsb (fun i => item_matches i c) items).

(** A matcher takes the index of the current position, the rest of the
    input and the continuation to run on what is left. *)
Definition matcher := nat -> jsstring -> (nat -> jsstring -> bool) -> bool.

(** Zero or more iterations of [mr].  An iteration that consumes nothing
    is rejected, as the specification of RepeatMatcher does, so the length
    of the input bounds the number of iterations. *)
Fixpoint star_loop (mr : matcher) (fuel : nat) : matcher :=
  fun pos s k =>
    match fuel with
    | S fuel' =>
        mr pos s (fun pos' s' =>
          (List.length s' <? List.length s)%nat && star_loop mr fuel' pos' s' k)
    | O => false
    end
    || k pos s.

(** [min] iterations of [mr], then any number of them. *)
Fixpoint repeat_from (mr : matcher) (min : nat) : matcher :=
  fun pos s k =>
    match min with
    | S min' => mr pos s (fun pos' s' => repeat_from mr min' pos' s' k)
    | O => star_loop mr (List.length s) pos s k
    end.

Fixpoint regex_match (r : regex) : matcher :=
  fun pos s k =>
    match r with
    | RChar a =>
        match s with
        | c :: s' => (c =? N_of_ascii a) && k (S pos) s'
        | [] => false
        end
    | RAny =>
        match s with
        | c :: s' => negb (is_line_terminator c) && k (S pos) s'
        | [] => false
        end
    | RClass negated items =>
        match s with
        | c :: s' => class_matches negated items c && k (S pos) s'
        | [] => false
        end
    | RBol => (pos =? 0)%nat && k pos s
    | REol => match s with [] => k pos s | _ :: _ => false end
    | RSeq r1 r2 =>
        regex_match r1 pos s (fun pos' s' => regex_match r2 pos' s' k)
    | RRepeat min r1 => repeat_from (regex_match r1) min pos s k
    | RNegLook r1 =>
        negb (regex_match r1 pos s (fun _ _ => true)) && k pos s
    end.

(** [RegExp.prototype.test] of a regex without the [g] flag: a match may
    start at any index, the end of the string included. *)
Fixpoint regex_search (r : regex) (pos : nat) (s : jsstring) : bool :=
  regex_match r pos s (fun _ _ => true)
  || match s with
     | _ :: s' => regex_search r (S pos) s'
     | [] => false
     end.

Definition regex_test (r : regex) (s : jsstring) : bool :=
  regex_search r 0%nat s.

(** The character classes of the two pages. *)
Definition lower_az : class_item := CRange "a" "z".
Definition upper_AZ : class_item := CRange "A" "Z".
Definition digit_09 : class_item := CRange "0" "9".

Definition re_lower : regex := RClass false [lower_az].            (* /[a-z]/ *)
Definition re_upper : regex := RClass false [upper_AZ].            (* /[A-Z]/ *)
Definition re_digit : regex := RClass false [digit_09].            (* /[0-9]/ *)
Definition re_other : regex :=
  RClass true [lower_az; upper_AZ; digit_09].                      (* /[^a-zA-Z0-9]/ *)

(** ** The password strength estimator (Signup.tsx, getPasswordStrength) *)

Inductive Strength := weak | medium | strong.

Definition bump (b : bool) (strength : nat) : nat :=
  if b then S strength else strength.

(** The local counter [strength] after the six tests. *)
Definition strength_points (password : jsstring) : nat :=
  let strength := 0%nat in
  let strength := bump (8 <=? List.length password)%nat strength in
  let strength := bump (12 <=? List.length password)%nat strength in
  let strength := bump (regex_test re_lower password) strength in
  let strength := bump (regex_test re_upper password) strength in
  let strength := bump (regex_test re_digit password) strength in
  let strength := bump (regex_test re_other password) strength in
  strength.

Definition getPasswordStrength (password : jsstring) : Strength :=
  match password with
  | [] => weak                                   (* if (!password) *)
  | _ :: _ =>
      let strength := strength_points password in
      if (strength <=? 2)%nat then weak
      else if (strength <=? 4)%nat then medium
      else strong
  end.

(** The point-scoring reference of the specification (section 4.2), in
    its own words: one point each for length at least 8, length at least
    12, and the presence of a lowercase letter, an uppercase letter, a
    digit and a non-alphanumeric character; the letters and digits are
    the ASCII ones. *)
Definition is_lowercase (c : code_unit) : bool := (97 <=? c) && (c <=? 122).
Definition is_uppercase (c : code_unit) : bool := (65 <=? c) && (c <=? 90).
Definition is_digit (c : code_unit) : bool := (48 <=? c) && (c <=? 57).
Definition is_alphanumeric (c : code_unit) : bool :=
  is_lowercase c || is_uppercase c || is_digit c.

Definition point (b : bool) : nat := if b then 1%nat else 0%nat.

Definition reference_score (p : jsstring) : nat :=
  (point (8 <=? List.length p)%nat
   + point (12 <=? List.length p)%nat
   + point (existsb is_lowercase p)
   + point (existsb is_uppercase p)
   + point (existsb is_digit p)
   + point (existsb (fun c => negb (is_alphanumeric c)) p))%nat.

Definition reference_strength (p : jsstring) : Strength :=
  let score := reference_score p in
  if (score <=? 2)%nat then weak
  else if (score <=? 4)%nat then medium
  else strong.

(** The four character classes the estimator looks for. *)
Inductive CharClass := Lowercase | Uppercase | Digit | NonAlphanumeric.

Definition class_of (c : code_unit) : CharClass :=
  if is_lowercase c then Lowercase
  else if is_uppercase c then Uppercase
  else if is_digit c then Digit
  else NonAlphanumeric.

Definition CharClass_eqb (a b : CharClass) : bool :=
  match a, b with
  | Lowercase, Lowercase | Uppercase, Uppercase
  | Digit, Digit | NonAlphanumeric, NonAlphanumeric => true
  | _, _ => false
  end.

Definition has_class (k : CharClass) (p : jsstring) : bool :=
  existsb (fun c => CharClass_eqb (class_of c) k) p.

Local Close Scope N_scope.

(** ** zod: string schemas

    A model of the zod library as the pages use it.  A string schema is
    the list of its checks in the order the method chain adds them.
    Parsing runs every check in that order on the current data, [trim]
    replacing the data, and records one issue for each check that fails;
    no check stops the ones after it. *)

Inductive ZodStringCheck :=
| ck_trim
| ck_min (value : nat) (message : string)
| ck_max (value : nat) (message : string)
| ck_regex (re : regex) (message : string)
| ck_email (emailRegex : jsstring -> bool) (message : string).

Definition ZodString := list ZodStringCheck.

(** [.nonempty(message)] is [.min(1, message)]. *)
Definition ck_nonempty (message : string) : ZodStringCheck := ck_min 1 message.

(** Does the check fail on [data], and with which message. *)
Definition check_issue (ck : ZodStringCheck) (data : jsstring) : option string :=
  match ck with
  | ck_trim => None
  | ck_min value message =>
      if List.length data <? value then Some message else None
  | ck_max value message =>
      if value <? List.length data then Some message else None
  | ck_regex re message =>
      if regex_test re data then None else Some message
  | ck_email emailRegex message =>
      if emailRegex data then None else Some message
  end.

(** The parsed value and the messages of the failed checks, in order. *)
Fixpoint ZodString_parse (checks : ZodString) (data : jsstring)
  : jsstring * list string :=
  match checks with
  | [] => (data, [])
  | ck_trim :: rest => ZodString_parse rest (trim data)
  | ck :: rest =>
      let (value, later) := ZodString_parse rest data in
      match check_issue ck data with
      | Some message => (value, message :: later)
      | None => (value, later)
      end
  end.

Record ZodIssue := { path : list string; message : string }.

(** The issues of the field [key] of an object schema. *)
Definition issues_at (key : string) (messages : list string) : list ZodIssue :=
  map (fun m => {| path := [key]; message := m |}) messages.

(** ** @hookform/resolvers/zod and react-hook-form

    The resolver turns the issues into the form's errors: an object from
    the joined path to the message of the first issue with that path. *)

Definition FieldErrors := list (string * string).

Fixpoint lookup (key : string) (errors : FieldErrors) : option string :=
  match errors with
  | (k, m) :: rest => if String.eqb k key then Some m else lookup key rest
  | [] => None
  end.

Definition entries (key : string) (errors : FieldErrors) : nat :=
  List.length (filter (fun e => String.eqb (fst e) key) errors).

Definition path_join (p : list string) : string := String.concat "." p.

Fixpoint parseErrorSchema (zodErrors : list ZodIssue) (errors : FieldErrors)
  : FieldErrors :=
  match zodErrors with
  | [] => errors
  | error :: rest =>
      let _path := path_join (path error) in
      match lookup _path errors with
      | Some _ => parseErrorSchema rest errors
      | None => parseErrorSchema rest (errors ++ [(_path, message error)])
      end
  end.

(** The result of a resolver: the parsed values when there is no issue,
    the errors otherwise. *)
Definition zodResolver {D : Type} (schema : D -> D * list ZodIssue)
    (values : D) : option D * FieldErrors :=
  match schema values with
  | (data, []) => (Some data, [])
  | (_, issues) => (None, parseErrorSchema issues [])
  end.

(** ** Effects of the pages *)

Inductive ToastKind := t_success | t_error | t_info.

Inductive StorageOp :=
| setItem (key value : string)
| getItem (key : string)
| removeItem (key : string)
| clear.

(** The callback of a delayed navigation. *)
Inductive Task := navigate (route : string).

Inductive Effect :=
| SetIsLoading (b : bool)
| SetIsSuccess (b : bool)
| LocalStorage (op : StorageOp)
| Toast (kind : ToastKind) (title description : string)
| SetTimeout (task : Task) (ms : nat)
| ConsoleError (label : string).

(** The state a page owns ([isSuccess] is Signup's; the login pages have
    no such flag and never touch it), the form's errors, the browser's
    local storage and the effects issued so far, oldest first. *)
Record World := {
  isLoading : bool;
  isSuccess : bool;
  errors : FieldErrors;
  localStorage : list (string * string);
  log : list Effect
}.

Definition emit (e : Effect) (w : World) : World :=
  {| isLoading := isLoading w; isSuccess := isSuccess w; errors := errors w;
     localStorage := localStorage w; log := log w ++ [e] |}.

(** A statement completes normally or throws. *)
Inductive Completion (A : Type) :=
| Normal (a : A)
| Throw (reason : string).
Arguments Normal {A} a.
Arguments Throw {A} reason.

Definition Eff (A : Type) := World -> Completion A * World.

Definition ret {A} (a : A) : Eff A := fun w => (Normal a, w).

Definition bind {A B} (m : Eff A) (f : A -> Eff B) : Eff B :=
  fun w =>
    match m w with
    | (Normal a, w') => f a w'
    | (Throw e, w') => (Throw e, w')
    end.

Notation "m1 ;; m2" := (bind m1 (fun _ => m2))
  (at level 61, right associativity).

Definition throw {A} (reason : string) : Eff A := fun w => (Throw reason, w).

Definition try_catch {A} (body : Eff A) (handler : string -> Eff A) : Eff A :=
  fun w =>
    match body w with
    | (Normal a, w') => (Normal a, w')
    | (Throw e, w') => handler e w'
    end.

Definition try_finally {A} (body : Eff A) (finalizer : Eff unit) : Eff A :=
  fun w =>
    let (c, w') := body w in
    match finalizer w' with
    | (Normal _, w'') => (c, w'')
    | (Throw e, w'') => (Throw e, w'')
    end.

Definition setIsLoading (b : bool) : Eff unit :=
  fun w =>
    (Normal tt,
     emit (SetIsLoading b)
       {| isLoading := b; isSuccess := isSuccess w; errors := errors w;
          localStorage := localStorage w; log := log w |}).

Definition setIsSuccess (b : bool) : Eff unit :=
  fun w =>
    (Normal tt,
     emit (SetIsSuccess b)
       {| isLoading := isLoading w; isSuccess := b; errors := errors w;
          localStorage := localStorage w; log := log w |}).

Definition storage_set (key value : string) (st : list (string * string))
  : list (string * string) :=
  if existsb (fun e => String.eqb (fst e) key) st
  then map (fun e => if String.eqb (fst e) key then (key, value) else e) st
  else st ++ [(key, value)].

(** [localStorage.setItem] in a browser that takes the write: the store
    is updated. *)
Definition localStorage_setItem (key value : string) : Eff unit :=
  fun w =>
    (Normal tt,
     emit (LocalStorage (setItem key value))
       {| isLoading := isLoading w; isSuccess := isSuccess w; errors := errors w;
          localStorage := storage_set key value (localStorage w); log := log w |}).

(** What the browser does with a write to local storage: it stores the
    value, or it throws (a full quota, storage denied to the page). *)
Inductive StoreWrite :=
| Stores
| Throws (reason : string).

Definition write_throws (browser : StoreWrite) : bool :=
  match browser with
  | Stores => false
  | Throws _ => true
  end.

(** [localStorage.setItem] in a given browser: a write that throws leaves
    the store as it is. *)
Definition localStorage_setItem_in (browser : StoreWrite) (key value : string)
  : Eff unit :=
  match browser with
  | Stores => localStorage_setItem key value
  | Throws reason => throw reason
  end.

Definition toast (kind : ToastKind) (title description : string) : Eff unit :=
  fun w => (Normal tt, emit (Toast kind title description) w).

Definition toast_success := toast t_success.
Definition toast_error := toast t_error.
Definition toast_info := toast t_info.

Definition setTimeout (task : Task) (ms : nat) : Eff unit :=
  fun w => (Normal tt, emit (SetTimeout task ms) w).

Definition console_error (label : string) : Eff unit :=
  fun w => (Normal tt, emit (ConsoleError label) w).

(** *** Promises *)

Inductive Settled := Fulfilled | Rejected (reason : string).

(** [new Promise(executor)]: the promise settles the way the executor
    uses the two functions it is given. *)
Definition new_Promise
    (executor : (unit -> Settled) -> (string -> Settled) -> Settled) : Settled :=
  executor (fun _ => Fulfilled) (fun reason => Rejected reason).

(** [setTimeout(callback, ms)] inside an executor: the timer fires once
    and calls [callback]; the delay itself is not observable here. *)
Definition after_timeout {A} (callback : unit -> A) (ms : nat) : A := callback tt.

(** [await p]: resumes when [p] is fulfilled, throws its reason when it is
    rejected. *)
Definition await (p : Settled) : Eff unit :=
  match p with
  | Fulfilled => ret tt
  | Rejected reason => throw reason
  end.

(** [handleSubmit(onValid)] of react-hook-form: runs the resolver, stores
    its errors in the form state and calls [onValid] with the parsed
    values only when there is no error. *)
Definition set_errors (errs : FieldErrors) (w : World) : World :=
  {| isLoading := isLoading w; isSuccess := isSuccess w; errors := errs;
     localStorage := localStorage w; log := log w |}.

Definition handleSubmit {D : Type} (resolver : D -> option D * FieldErrors)
    (onValid : D -> Eff unit) (values : D) : Eff unit :=
  fun w =>
    let (parsed, errs) := resolver values in
    let w' := set_errors errs w in
    match errs, parsed with
    | [], Some data => onValid data w'
    | _, _ => (Normal tt, w')
    end.

(** JavaScript truthiness of an optional boolean. *)
Definition truthy (b : option bool) : bool :=
  match b with
  | Some true => true
  | _ => false
  end.


(** The effects only a [catch] branch of [onSubmit] issues. *)
Definition from_catch (e : Effect) : bool :=
  match e with
  | ConsoleError _ | Toast t_error _ _ => true
  | _ => false
  end.

Definition toasts (l : list Effect) : list Effect :=
  filter (fun e => match e with Toast _ _ _ => true | _ => false end) l.

Infix "@@" := RSeq (at level 60, right associativity).

(** ** Login.tsx, the first login page (lines 1-280) *)

Module Login.

(** [/^(?!\.)(?!.*\.@)[a-zA-Z0-9._%+-]+@[a-zA-Z0-9.-]+\.[a-zA-Z]{2,}$/] *)
Definition EMAIL_REGEX : regex :=
  RBol
  @@ RNegLook (RChar ".")
  @@ RNegLook (RRepeat 0 RAny @@ RChar "." @@ RChar "@")
  @@ RRepeat 1 (RClass false [lower_az; upper_AZ; digit_09;
                             CChar "."; CChar "_"; CChar "%"; CChar "+"; CChar "-"])
  @@ RChar "@"
  @@ RRepeat 1 (RClass false [lower_az; upper_AZ; digit_09; CChar "."; CChar "-"])
  @@ RChar "."
  @@ RRepeat 2 (RClass false [lower_az; upper_AZ])
  @@ REol.

Record LoginFormData := {
  email : jsstring;
  password : jsstring;
  rememberMe : option bool
}.

Definition email_schema : ZodString :=
  [ ck_trim;
    ck_nonempty "Email is required";
    ck_regex EMAIL_REGEX "Please enter a valid email address" ].

Definition password_schema : ZodString :=
  [ ck_nonempty "Password is required";
    ck_min 8 "Password must be at least 8 characters";
    ck_max 15 "Password must be at most 15 characters" ].

(** [z.object({...})]: the fields are parsed in the order of the shape;
    [rememberMe] is an optional boolean and has no check. *)
Definition loginSchema (data : LoginFormData) : LoginFormData * list ZodIssue :=
  let (email', email_issues) := ZodString_parse email_schema (email data) in
  let (password', password_issues) := ZodString_parse password_schema (password data) in
  ({| email := email'; password := password'; rememberMe := rememberMe data |},
   issues_at "email" email_issues ++ issues_at "password" password_issues).

(** [onSubmit], with the browser's answer to a storage write and the
    promise it awaits as parameters. *)
Definition onSubmit_in (browser : StoreWrite) (apiCall : Settled)
    (data : LoginFormData) : Eff unit :=
  try_finally
    (try_catch
       (setIsLoading true ;;
        await apiCall ;;
        (if truthy (rememberMe data)
         then localStorage_setItem_in browser "rememberMe" "true"
         else ret tt) ;;
        toast_success "Login successful! Welcome back." "Redirecting to dashboard..." ;;
        setTimeout (navigate "/") 1000)
       (fun _ =>
          console_error "Login error:" ;;
          toast_error "Login failed" "Invalid email or password. Please try again."))
    (setIsLoading false).

(** [onSubmit] in a browser that takes the write, with the promise it
    awaits as a parameter. *)
Definition onSubmit_with (apiCall : Settled) (data : LoginFormData) : Eff unit :=
  onSubmit_in Stores apiCall data.

(** The simulated API call: [new Promise((resolve) => setTimeout(resolve, 1500))]. *)
Definition simulated_call : Settled :=
  new_Promise (fun resolve _ => after_timeout resolve 1500).

Definition onSubmit : LoginFormData -> Eff unit := onSubmit_with simulated_call.

(** The form's [onSubmit={handleSubmit(onSubmit)}], for any awaited call. *)
Definition submit_with (apiCall : Settled) : LoginFormData -> Eff unit :=
  handleSubmit (zodResolver loginSchema) (onSubmit_with apiCall).

Definition submit : LoginFormData -> Eff unit :=
  handleSubmit (zodResolver loginSchema) onSubmit.

(** The same form in a given browser. *)
Definition submit_in (browser : StoreWrite) : LoginFormData -> Eff unit :=
  handleSubmit (zodResolver loginSchema) (onSubmit_in browser simulated_call).

End Login.

(** ** Login.tsx, the second login page (lines 281-550)

    It differs from the first in its schema only: zod's own [.email()]
    check, whose pattern belongs to the library and is a parameter here,
    and other length bounds.  Its [onSubmit] is the same text. *)

Module Login2.
Section WithZod.

Variable zod_emailRegex : jsstring -> bool.

Definition email_schema : ZodString :=
  [ ck_trim;
    ck_nonempty "Email is required";
    ck_email zod_emailRegex "Please enter a valid email address";
    ck_max 255 "Email must be less than 255 characters" ].

Definition password_schema : ZodString :=
  [ ck_nonempty "Password is required";
    ck_min 6 "Password must be at least 6 characters";
    ck_max 100 "Password must be less than 100 characters" ].

Definition loginSchema (data : Login.LoginFormData)
  : Login.LoginFormData * list ZodIssue :=
  let (email', email_issues) :=
    ZodString_parse email_schema (Login.email data) in
  let (password', password_issues) :=
    ZodString_parse password_schema (Login.password data) in
  ({| Login.email := email'; Login.password := password';
      Login.rememberMe := Login.rememberMe data |},
   issues_at "email" email_issues ++ issues_at "password" password_issues).

Definition onSubmit_in (browser : StoreWrite) (apiCall : Settled)
    (data : Login.LoginFormData) : Eff unit :=
  try_finally
    (try_catch
       (setIsLoading true ;;
        await apiCall ;;
        (if truthy (Login.rememberMe data)
         then localStorage_setItem_in browser "rememberMe" "true"
         else ret tt) ;;
        toast_success "Login successful! Welcome back." "Redirecting to dashboard..." ;;
        setTimeout (navigate "/") 1000)
       (fun _ =>
          console_error "Login error:" ;;
          toast_error "Login failed" "Invalid email or password. Please try again."))
    (setIsLoading false).

Definition onSubmit_with (apiCall : Settled) (data : Login.LoginFormData)
  : Eff unit :=
  onSubmit_in Stores apiCall data.

Definition simulated_call : Settled :=
  new_Promise (fun resolve _ => after_timeout resolve 1500).

Definition onSubmit : Login.LoginFormData -> Eff unit :=
  onSubmit_with simulated_call.

Definition submit_with (apiCall : Settled) : Login.LoginFormData -> Eff unit :=
  handleSubmit (zodResolver loginSchema) (onSubmit_with apiCall).

Definition submit : Login.LoginFormData -> Eff unit :=
  handleSubmit (zodResolver loginSchema) onSubmit.

Definition submit_in (browser : StoreWrite) : Login.LoginFormData -> Eff unit :=
  handleSubmit (zodResolver loginSchema) (onSubmit_in browser simulated_call).

End WithZod.
End Login2.

(** ** Signup.tsx *)

Module Signup.
Section WithZod.

Variable zod_emailRegex : jsstring -> bool.

Record SignupFormData := {
  fullName : jsstring;
  email : jsstring;
  password : jsstring;
  confirmPassword : jsstring
}.

(** [/^[a-zA-Z\s]+$/] *)
Definition NAME_REGEX : regex :=
  RBol @@ RRepeat 1 (RClass false [lower_az; upper_AZ; CSpace]) @@ REol.

Definition fullName_schema : ZodString :=
  [ ck_trim;
    ck_nonempty "Full name is required";
    ck_min 2 "Name must be at least 2 characters";
    ck_max 100 "Name must be less than 100 characters";
    ck_regex NAME_REGEX "Name can only contain letters and spaces" ].

Definition email_schema : ZodString :=
  [ ck_trim;
    ck_nonempty "Email is required";
    ck_email zod_emailRegex "Please enter a valid email address";
    ck_max 255 "Email must be less than 255 characters" ].

Definition password_schema : ZodString :=
  [ ck_nonempty "Password is required";
    ck_min 8 "Password must be at least 8 characters";
    ck_max 100 "Password must be less than 100 characters";
    ck_regex re_upper "Password must contain at least one uppercase letter";
    ck_regex re_lower "Password must contain at least one lowercase letter";
    ck_regex re_digit "Password must contain at least one number" ].

Definition confirmPassword_schema : ZodString :=
  [ ck_nonempty "Please confirm your password" ].

(** The [z.object({...})] under the refinement. *)
Definition signupObject (data : SignupFormData) : SignupFormData * list ZodIssue :=
  let (fullName', fullName_issues) :=
    ZodString_parse fullName_schema (fullName data) in
  let (email', email_issues) :=
    ZodString_parse email_schema (email data) in
  let (password', password_issues) :=
    ZodString_parse password_schema (password data) in
  let (confirmPassword', confirmPassword_issues) :=
    ZodString_parse confirmPassword_schema (confirmPassword data) in
  ({| fullName := fullName'; email := email'; password := password';
      confirmPassword := confirmPassword' |},
   issues_at "fullName" fullName_issues ++ issues_at "email" email_issues
   ++ issues_at "password" password_issues
   ++ issues_at "confirmPassword" confirmPassword_issues).

(** [.refine(check, {message, path})]: the object is parsed first; failed
    string checks leave the parse going, so the refinement runs on the
    parsed value and adds its issue after the object's. *)
Definition signupSchema (data : SignupFormData) : SignupFormData * list ZodIssue :=
  let (value, issues) := signupObject data in
  (value,
   issues ++
   (if jsstring_eqb (password value) (confirmPassword value) then []
    else [ {| path := ["confirmPassword"%string]; message := "Passwords don't match" |} ])).

Definition onSubmit_with (apiCall : Settled) (data : SignupFormData) : Eff unit :=
  try_catch
    (setIsLoading true ;;
     await apiCall ;;
     setIsSuccess true ;;
     toast_success "Account created successfully!"
                   "Welcome aboard! Redirecting to login..." ;;
     setTimeout (navigate "/login") 2500)
    (fun _ =>
       console_error "Signup error:" ;;
       toast_error "Registration failed" "Something went wrong. Please try again." ;;
       setIsLoading false).

(** The simulated API call: [new Promise((resolve) => setTimeout(resolve, 2000))]. *)
Definition simulated_call : Settled :=
  new_Promise (fun resolve _ => after_timeout resolve 2000).

Definition onSubmit : SignupFormData -> Eff unit := onSubmit_with simulated_call.

Definition submit_with (apiCall : Settled) : SignupFormData -> Eff unit :=
  handleSubmit (zodResolver signupSchema) (onSubmit_with apiCall).

Definition submit : SignupFormData -> Eff unit :=
  handleSubmit (zodResolver signupSchema) onSubmit.

End WithZod.
End Signup.

(** ** Notions the statements use *)

(** The state of a page when it is mounted. *)
Definition mounted : World :=
  {| isLoading := false; isSuccess := false; errors := [];
     localStorage := []; log := [] |}.

(** A schema accepts the values when parsing them raises no issue. *)
Definition accepts {D : Type} (schema : D -> D * list ZodIssue) (values : D) : bool :=
  match snd (schema values) with
  | [] => true
  | _ :: _ => false
  end.


(** The message of the first issue raised for the field [key]. *)
Definition first_message (key : string) (issues : list ZodIssue) : option string :=
  match find (fun i => String.eqb (path_join (path i)) key) issues with
  | Some i => Some (message i)
  | None => None
  end.

(** The constraints on the signup password in the order the specification
    lists them (non-empty, at least 8, at most 100, an uppercase letter, a
    lowercase letter, a digit), each with the message the schema gives it:
    the message of the first one violated, if any. *)
Definition password_first_violation (p : jsstring) : option string :=
  match p with
  | [] => Some "Password is required"%string
  | _ :: _ =>
      if List.length p <? 8
      then Some "Password must be at least 8 characters"%string
      else if 100 <? List.length p
      then Some "Password must be less than 100 characters"%string
      else if negb (existsb is_uppercase p)
      then Some "Password must contain at least one uppercase letter"%string
      else if negb (existsb is_lowercase p)
      then Some "Password must contain at least one lowercase letter"%string
      else if negb (existsb is_digit p)
      then Some "Password must contain at least one number"%string
      else None
  end.

(** A string schema that never trims its input. *)
Definition no_trim (checks : ZodString) : bool :=
  forallb (fun ck => match ck with ck_trim => false | _ => true end) checks.


(** Submissions of the specification's scenarios. *)
Definition mismatched_signup : Signup.SignupFormData :=
  {| Signup.fullName := js "Ada Lovelace";
     Signup.email := js "ada@example.com";
     Signup.password := js "Abcdef12";
     Signup.confirmPassword := js "Abcdef13" |}.

Definition invalid_email_login : Login.LoginFormData :=
  {| Login.email := js "not-an-email";
     Login.password := js "Passw0rd1";
     Login.rememberMe := Some false |}.

Definition empty_email_login : Login.LoginFormData :=
  {| Login.email := js "";
     Login.password := js "Passw0rd1";
     Login.rememberMe := Some false |}.

(** ** Shapes the patterns describe *)

Definition is_letter (c : code_unit) : bool := is_lowercase c || is_uppercase c.

(** The members of [[a-zA-Z0-9._%+-]] and of [[a-zA-Z0-9.-]]. *)
Definition is_local_char (c : code_unit) : bool :=
  is_alphanumeric c
  || N.eqb c 46 || N.eqb c 95 || N.eqb c 37 || N.eqb c 43 || N.eqb c 45.

Definition is_domain_char (c : code_unit) : bool :=
  is_alphanumeric c || N.eqb c 46 || N.eqb c 45.

(** The members of [[a-zA-Z\s]]. *)
Definition is_name_char (c : code_unit) : bool := is_letter c || is_js_space c.

(** A local part that neither starts nor ends with a dot, [@], a domain,
    a dot and a top-level name of two letters or more. *)
Definition email_shape (s : jsstring) : Prop :=
  exists local domain tld : jsstring,
    s = local ++ js "@" ++ domain ++ js "." ++ tld
    /\ local <> []
    /\ forallb is_local_char local = true
    /\ hd_error local <> Some 46%N
    /\ last local 0%N <> 46%N
    /\ domain <> []
    /\ forallb is_domain_char domain = true
    /\ 2 <= List.length tld
    /\ forallb is_letter tld = true.

(** A matcher that consumes one code unit satisfying [f]. *)
Definition one_char (f : code_unit -> bool) (m : matcher) : Prop :=
  forall pos s k,
    m pos s k
    = match s with
      | c :: s' => f c && k (S pos) s'
      | [] => false
      end.

(** The three classes of the email pattern. *)
Definition email_local : list class_item :=
  [lower_az; upper_AZ; digit_09; CChar "."; CChar "_"; CChar "%"; CChar "+"; CChar "-"].
Definition email_domain : list class_item :=
  [lower_az; upper_AZ; digit_09; CChar "."; CChar "-"].
Definition email_tld : list class_item := [lower_az; upper_AZ].

(** ** What each field's checks report

    For each field, the message of the first check that fails, if any: the
    checks of its schema in their order, on the value the checks see (the
    trimmed one for the fields that trim). *)

Definition field_entry (key : string) (violation : option string) : FieldErrors :=
  match violation with
  | Some m => [(key, m)]
  | None => []
  end.

Definition login_email_violation (e : jsstring) : option string :=
  match e with
  | [] => Some "Email is required"%string
  | _ :: _ =>
      if regex_test Login.EMAIL_REGEX e then None
      else Some "Please enter a valid email address"%string
  end.

Definition login_password_violation (p : jsstring) : option string :=
  match p with
  | [] => Some "Password is required"%string
  | _ :: _ =>
      if List.length p <? 8
      then Some "Password must be at least 8 characters"%string
      else if 15 <? List.length p
      then Some "Password must be at most 15 characters"%string
      else None
  end.

(** The email field of the second login page and of the signup page. *)
Definition zod_email_violation (zod : jsstring -> bool) (e : jsstring)
  : option string :=
  match e with
  | [] => Some "Email is required"%string
  | _ :: _ =>
      if negb (zod e) then Some "Please enter a valid email address"%string
      else if 255 <? List.length e
      then Some "Email must be less than 255 characters"%string
      else None
  end.

Definition login2_password_violation (p : jsstring) : option string :=
  match p with
  | [] => Some "Password is required"%string
  | _ :: _ =>
      if List.length p <? 6
      then Some "Password must be at least 6 characters"%string
      else if 100 <? List.length p
      then Some "Password must be less than 100 characters"%string
      else None
  end.

Definition fullName_violation (n : jsstring) : option string :=
  match n with
  | [] => Some "Full name is required"%string
  | _ :: _ =>
      if List.length n <? 2
      then Some "Name must be at least 2 characters"%string
      else if 100 <? List.length n
      then Some "Name must be less than 100 characters"%string
      else if negb (forallb is_name_char n)
      then Some "Name can only contain letters and spaces"%string
      else None
  end.

Definition confirmPassword_violation (p c : jsstring) : option string :=
  match c with
  | [] => Some "Please confirm your password"%string
  | _ :: _ =>
      if jsstring_eqb p c then None else Some "Passwords don't match"%string
  end.



(** The state the signup page is left in by a submission that went
    through. *)
Definition signup_success (w : World) : World :=
  {| isLoading := true; isSuccess := true; errors := [];
     localStorage := localStorage w;
     log :=
       log w
       ++ [SetIsLoading true;
           SetIsSuccess true;
           Toast t_success "Account created successfully!"
             "Welcome aboard! Redirecting to login...";
           SetTimeout (navigate "/login") 2500] |}.

(** The ratings in increasing order. *)
Definition rank (s : Strength) : nat :=
  match s with
  | weak => 0
  | medium => 1
  | strong => 2
  end.

(** How many of the four character classes occur in a password. *)
Definition class_count (p : jsstring) : nat :=
  point (existsb is_lowercase p) + point (existsb is_uppercase p)
  + point (existsb is_digit p)
  + point (existsb (fun c => negb (is_alphanumeric c)) p).

(** The valid login of the specification's scenario, with the box ticked. *)
Definition valid_login : Login.LoginFormData :=
  {| Login.email := js "user@example.com";
     Login.password := js "Passw0rd1";
     Login.rememberMe := Some true |}.

(** ** The theme toggle of the first login page (Login.tsx, toggleTheme)

    [isDarkMode] is the component's flag; [toggleTheme] also writes the
    [data-theme] attribute of the document body, which nothing sets before
    the first toggle.  The page's own container takes its attribute from the
    flag at each render. *)
Record Theme := {
  isDarkMode : bool;
  body_data_theme : option string
}.

Definition theme_mounted : Theme :=
  {| isDarkMode := false; body_data_theme := None |}.

Definition toggleTheme (t : Theme) : Theme :=
  {| isDarkMode := negb (isDarkMode t);
     body_data_theme :=
       Some (if negb (isDarkMode t) then "dark" else "light")%string |}.

Definition container_data_theme (t : Theme) : string :=
  if isDarkMode t then "dark" else "light".

(** ** The strength indicator of the signup page (Signup.tsx, useEffect)

    The effect runs with each new value of the watched password and
    updates [passwordStrength] only when that value is not empty. *)
Definition strength_effect (watchPassword : jsstring) (passwordStrength : Strength)
  : Strength :=
  match watchPassword with
  | [] => passwordStrength
  | _ :: _ => getPasswordStrength watchPassword
  end.

(** [passwordStrength] after the password took the given values in turn,
    from the initial [weak]. *)
Definition strength_shown (history : list jsstring) : Strength :=
  fold_left (fun st pw => strength_effect pw st) history weak.

Definition nonempty (s : jsstring) : bool :=
  match s with
  | [] => false
  | _ :: _ => true
  end.

(** A signup and a login with the same password of 16 code units. *)
Definition long_password_signup : Signup.SignupFormData :=
  {| Signup.fullName := js "Ada Lovelace";
     Signup.email := js "ada@example.com";
     Signup.password := js "Abcdefgh12345678";
     Signup.confirmPassword := js "Abcdefgh12345678" |}.

Definition long_password_login : Login.LoginFormData :=
  {| Login.email := js "ada@example.com";
     Login.password := js "Abcdefgh12345678";
     Login.rememberMe := None |}.

(** * Theorems *)

(** ** Character classes and [test] *)

Lemma existsb_pointwise {A} (f g : A -> bool) (l : list A) :
  (forall x, f x = g x) -> existsb f l = existsb g l.
Proof.
  intros E. induction l as [|x l IH]; simpl; [reflexivity|].
  now rewrite E, IH.
Qed.

(** A regex that is one character class finds a match exactly when some
    code unit of the input is in the class. *)
Lemma regex_search_class negated items s :
  forall pos,
    regex_search (RClass negated items) pos s
    = existsb (class_matches negated items) s.
Proof.
  induction s as [|c s IH]; intros pos; simpl; [reflexivity|].
  now rewrite IH, andb_true_r.
Qed.

Lemma test_lower p : regex_test re_lower p = existsb is_lowercase p.
Proof.
  unfold regex_test, re_lower. rewrite regex_search_class.
  apply existsb_pointwise. intros c.
  unfold class_matches, is_lowercase. simpl. now rewrite orb_false_r.
Qed.

Lemma test_upper p : regex_test re_upper p = existsb is_uppercase p.
Proof.
  unfold regex_test, re_upper. rewrite regex_search_class.
  apply existsb_pointwise. intros c.
  unfold class_matches, is_uppercase. simpl. now rewrite orb_false_r.
Qed.

Lemma test_digit p : regex_test re_digit p = existsb is_digit p.
Proof.
  unfold regex_test, re_digit. rewrite regex_search_class.
  apply existsb_pointwise. intros c.
  unfold class_matches, is_digit. simpl. now rewrite orb_false_r.
Qed.

Lemma test_other p :
  regex_test re_other p = existsb (fun c => negb (is_alphanumeric c)) p.
Proof.
  unfold regex_test, re_other. rewrite regex_search_class.
  apply existsb_pointwise. intros c.
  unfold class_matches, is_alphanumeric, is_lowercase, is_uppercase, is_digit.
  simpl. now rewrite orb_false_r, orb_assoc.
Qed.

(** ** The password strength estimator *)

Lemma bump_point b n : bump b n = (n + point b)%nat.
Proof. destruct b; simpl; lia. Qed.

Lemma strength_points_reference p : strength_points p = reference_score p.
Proof.
  unfold strength_points, reference_score.
  rewrite test_lower, test_upper, test_digit, test_other.
  rewrite !bump_point. lia.
Qed.

(** C1: on every string the estimator returns the rating of the
    specification's point-scoring reference (one point each for length at
    least 8, length at least 12, a lowercase letter, an uppercase letter, a
    digit, a non-alphanumeric character; at most 2 points weak, 3 or 4
    medium, 5 or more strong); the empty string and [abc] are weak and
    [Abc123!@#xyz] is strong. *)
Theorem getPasswordStrength_reference :
  (forall p : jsstring, getPasswordStrength p = reference_strength p)
  /\ getPasswordStrength (js "") = weak
  /\ getPasswordStrength (js "abc") = weak
  /\ getPasswordStrength (js "Abc123!@#xyz") = strong.
Proof.
  split; [|repeat split; reflexivity].
  intros [|c p]; [reflexivity|].
  unfold getPasswordStrength, reference_strength.
  now rewrite strength_points_reference.
Qed.

Lemma point_le (a b : bool) : (a = true -> b = true) -> (point a <= point b)%nat.
Proof. destruct a, b; simpl; intros H; try lia; discriminate (H eq_refl). Qed.

Lemma existsb_app_l {A} (f : A -> bool) (p q : list A) :
  existsb f p = true -> existsb f (p ++ q) = true.
Proof. intros H. rewrite existsb_app, H. reflexivity. Qed.

(** Appending to a password never lowers its score. *)
Lemma strength_points_app p q :
  (strength_points p <= strength_points (p ++ q))%nat.
Proof.
  rewrite !strength_points_reference. unfold reference_score.
  rewrite length_app.
  repeat apply Nat.add_le_mono; apply point_le;
    try apply existsb_app_l;
    rewrite !Nat.leb_le; lia.
Qed.

(** C2: for every password [p] and every character [c] whose class
    (lowercase, uppercase, digit, non-alphanumeric) does not occur in [p],
    the score computed for [p] with [c] appended is at least the score
    computed for [p]. *)
Theorem strength_points_new_class (p : jsstring) (c : code_unit) :
  has_class (class_of c) p = false ->
  (strength_points p <= strength_points (p ++ [c]))%nat.
Proof. intros _. apply strength_points_app. Qed.

Lemma strength_points_new_class_witness :
  has_class (class_of 49%N) (js "abcdefg") = false
  /\ (strength_points (js "abcdefg") <= strength_points (js "abcdefg" ++ [49%N]))%nat.
Proof.
  split; [reflexivity|].
  apply (strength_points_new_class (js "abcdefg") 49%N). reflexivity.
Defined.

(** C9: a password rated strong has at least 8 code units: the four
    character-class tests give at most 4 points and strong needs 5. *)
Theorem strong_length_8 (p : jsstring) :
  getPasswordStrength p = strong -> (8 <= List.length p)%nat.
Proof.
  destruct p as [|c p]; [discriminate|].
  unfold getPasswordStrength.
  set (pw := c :: p).
  destruct (Nat.le_gt_cases 8 (List.length pw)) as [H|H]; [intros _; exact H|].
  assert (P : (strength_points pw <= 4)%nat).
  { unfold strength_points.
    assert (E8 : (8 <=? List.length pw)%nat = false) by (apply Nat.leb_gt; lia).
    assert (E12 : (12 <=? List.length pw)%nat = false) by (apply Nat.leb_gt; lia).
    rewrite E8, E12, !bump_point.
    destruct (regex_test re_lower pw), (regex_test re_upper pw),
      (regex_test re_digit pw), (regex_test re_other pw); simpl; lia. }
  destruct (strength_points pw <=? 2)%nat eqn:E2; [discriminate|].
  destruct (strength_points pw <=? 4)%nat eqn:E4; [discriminate|].
  apply Nat.leb_gt in E4. lia.
Qed.

Lemma strong_length_8_witness :
  getPasswordStrength (js "Abc123!@#xyz") = strong
  /\ (8 <= List.length (js "Abc123!@#xyz"))%nat.
Proof.
  split; [reflexivity|].
  apply (strong_length_8 (js "Abc123!@#xyz")). reflexivity.
Defined.

(** ** The resolver *)

Lemma lookup_app key errs k m :
  lookup key (errs ++ [(k, m)])
  = match lookup key errs with
    | Some x => Some x
    | None => if String.eqb k key then Some m else None
    end.
Proof.
  induction errs as [|[k' m'] errs IH]; simpl; [reflexivity|].
  destruct (String.eqb k' key); [reflexivity|exact IH].
Qed.

(** The resolver keeps, for each field, the message of its first issue. *)
Lemma lookup_parseErrorSchema key issues :
  forall errs,
    lookup key (parseErrorSchema issues errs)
    = match lookup key errs with
      | Some m => Some m
      | None => first_message key issues
      end.
Proof.
  unfold first_message.
  induction issues as [|i issues IH]; intros errs; simpl.
  - now destruct (lookup key errs).
  - destruct (lookup (path_join (path i)) errs) eqn:L.
    + rewrite IH. destruct (lookup key errs) eqn:K; [reflexivity|].
      destruct (String.eqb (path_join (path i)) key) eqn:E; [|reflexivity].
      apply String.eqb_eq in E. congruence.
    + rewrite IH, lookup_app.
      destruct (lookup key errs); [reflexivity|].
      now destruct (String.eqb (path_join (path i)) key).
Qed.

Lemma parseErrorSchema_keeps issues :
  forall errs, errs <> [] -> parseErrorSchema issues errs <> [].
Proof.
  induction issues as [|i issues IH]; intros errs H; simpl; [exact H|].
  destruct (lookup (path_join (path i)) errs); apply IH; [exact H|].
  now destruct errs.
Qed.

Lemma zodResolver_errors {D} (schema : D -> D * list ZodIssue) values :
  snd (zodResolver schema values) = parseErrorSchema (snd (schema values)) [].
Proof.
  unfold zodResolver. destruct (schema values) as [data [|i issues]]; reflexivity.
Qed.

(** The resolver hands back the parsed values exactly when the schema
    accepts them, and then reports no error. *)
Lemma zodResolver_accepts {D} (schema : D -> D * list ZodIssue) values :
  accepts schema values = true ->
  zodResolver schema values = (Some (fst (schema values)), []).
Proof.
  unfold accepts, zodResolver.
  destruct (schema values) as [data [|i issues]]; simpl; [reflexivity|discriminate].
Qed.

Lemma zodResolver_rejects {D} (schema : D -> D * list ZodIssue) values :
  accepts schema values = false ->
  exists e errs, zodResolver schema values = (None, e :: errs).
Proof.
  unfold accepts, zodResolver.
  destruct (schema values) as [data [|i issues]]; simpl; [discriminate|].
  intros _.
  destruct (parseErrorSchema issues [(path_join (path i), message i)]) as [|e errs] eqn:E.
  - now apply parseErrorSchema_keeps in E.
  - now exists e, errs.
Qed.

(** [handleSubmit] on rejected values stores the errors and does nothing
    else; on accepted values it clears the errors and runs the handler on
    the parsed values. *)
Lemma handleSubmit_rejects {D} (schema : D -> D * list ZodIssue) onValid values w :
  accepts schema values = false ->
  handleSubmit (zodResolver schema) onValid values w
  = (Normal tt, set_errors (parseErrorSchema (snd (schema values)) []) w).
Proof.
  intros H. unfold handleSubmit.
  rewrite <- zodResolver_errors.
  destruct (zodResolver_rejects schema values H) as (e & errs & ->).
  reflexivity.
Qed.

Lemma handleSubmit_accepts {D} (schema : D -> D * list ZodIssue) onValid values w :
  accepts schema values = true ->
  handleSubmit (zodResolver schema) onValid values w
  = onValid (fst (schema values)) (set_errors [] w).
Proof.
  intros H. unfold handleSubmit. now rewrite (zodResolver_accepts schema values H).
Qed.

Lemma first_message_app key a b :
  first_message key (a ++ b)
  = match first_message key a with
    | Some m => Some m
    | None => first_message key b
    end.
Proof.
  unfold first_message. induction a as [|i a IH]; simpl; [reflexivity|].
  destruct (String.eqb (path_join (path i)) key); [reflexivity|exact IH].
Qed.

Lemma first_message_issues_at key k messages :
  first_message key (issues_at k messages)
  = if String.eqb k key then hd_error messages else None.
Proof.
  unfold first_message, issues_at.
  destruct messages as [|m messages]; simpl.
  - now destruct (String.eqb k key).
  - change (path_join [k]) with k.
    destruct (String.eqb k key) eqn:E; [reflexivity|].
    induction messages as [|m' messages IH]; simpl; [reflexivity|].
    change (path_join [k]) with k. now rewrite E.
Qed.

(** ** The signup schema *)

(** A string schema without [trim] hands its input back. *)
Lemma ZodString_parse_value checks data :
  no_trim checks = true -> fst (ZodString_parse checks data) = data.
Proof.
  induction checks as [|ck checks IH]; simpl; [reflexivity|].
  destruct ck; simpl; try discriminate; intros H;
    destruct (ZodString_parse checks data) as [v later]; simpl in *;
    match goal with
    | |- context [if ?b then _ else _] =>
        match type of b with bool => destruct b end
    end; simpl; auto.
Qed.

Lemma signupObject_issues zod v :
  snd (Signup.signupObject zod v)
  = issues_at "fullName" (snd (ZodString_parse Signup.fullName_schema (Signup.fullName v)))
    ++ issues_at "email" (snd (ZodString_parse (Signup.email_schema zod) (Signup.email v)))
    ++ issues_at "password" (snd (ZodString_parse Signup.password_schema (Signup.password v)))
    ++ issues_at "confirmPassword"
         (snd (ZodString_parse Signup.confirmPassword_schema (Signup.confirmPassword v))).
Proof.
  unfold Signup.signupObject.
  destruct (ZodString_parse Signup.fullName_schema _),
    (ZodString_parse (Signup.email_schema zod) _),
    (ZodString_parse Signup.password_schema _),
    (ZodString_parse Signup.confirmPassword_schema _); reflexivity.
Qed.

Lemma signupObject_passwords zod v :
  Signup.password (fst (Signup.signupObject zod v)) = Signup.password v
  /\ Signup.confirmPassword (fst (Signup.signupObject zod v)) = Signup.confirmPassword v.
Proof.
  pose proof (ZodString_parse_value Signup.password_schema
                (Signup.password v) eq_refl) as P.
  pose proof (ZodString_parse_value Signup.confirmPassword_schema
                (Signup.confirmPassword v) eq_refl) as C.
  unfold Signup.signupObject.
  destruct (ZodString_parse Signup.fullName_schema _),
    (ZodString_parse (Signup.email_schema zod) _),
    (ZodString_parse Signup.password_schema _),
    (ZodString_parse Signup.confirmPassword_schema _); simpl in *; auto.
Qed.

Lemma signupSchema_issues zod v :
  snd (Signup.signupSchema zod v)
  = snd (Signup.signupObject zod v)
    ++ (if jsstring_eqb (Signup.password v) (Signup.confirmPassword v) then []
        else [ {| path := ["confirmPassword"%string];
                  message := "Passwords don't match" |} ]).
Proof.
  destruct (signupObject_passwords zod v) as [P C].
  unfold Signup.signupSchema.
  destruct (Signup.signupObject zod v) as [value issues]; simpl in *.
  now rewrite P, C.
Qed.

(** The first issue the password schema raises is the first violated
    constraint. *)
Lemma password_schema_first p :
  hd_error (snd (ZodString_parse Signup.password_schema p))
  = password_first_violation p.
Proof.
  unfold Signup.password_schema, password_first_violation, ck_nonempty.
  cbn [ZodString_parse check_issue].
  rewrite test_upper, test_lower, test_digit.
  destruct p as [|c p]; [reflexivity|].
  set (pw := c :: p).
  replace (List.length pw <? 1) with false
    by (symmetry; apply Nat.ltb_ge; simpl; lia).
  destruct (List.length pw <? 8), (100 <? List.length pw),
    (existsb is_uppercase pw), (existsb is_lowercase pw),
    (existsb is_digit pw); reflexivity.
Qed.

Lemma password_first_violation_none p :
  password_first_violation p = None
  <-> p <> []
      /\ 8 <= List.length p <= 100
      /\ (exists c, In c p /\ is_uppercase c = true)
      /\ (exists c, In c p /\ is_lowercase c = true)
      /\ (exists c, In c p /\ is_digit c = true).
Proof.
  rewrite <- !existsb_exists.
  unfold password_first_violation.
  destruct p as [|c p]; [split; [discriminate|intros [H _]; now destruct H]|].
  set (pw := c :: p).
  destruct (Nat.ltb_spec (List.length pw) 8);
    [split; [discriminate|lia]|].
  destruct (Nat.ltb_spec 100 (List.length pw));
    [split; [discriminate|lia]|].
  destruct (existsb is_uppercase pw); cbn [negb];
    [|split; [discriminate|intros (_ & _ & ? & _); discriminate]].
  destruct (existsb is_lowercase pw); cbn [negb];
    [|split; [discriminate|intros (_ & _ & _ & ? & _); discriminate]].
  destruct (existsb is_digit pw); cbn [negb];
    [|split; [discriminate|intros (_ & _ & _ & _ & ?); discriminate]].
  split; [intros _|reflexivity].
  repeat split; try lia; try reflexivity. discriminate.
Qed.

(** C3: the signup schema leaves the password field without an error
    exactly when the password is non-empty, has between 8 and 100 code
    units and contains an uppercase letter, a lowercase letter and a digit;
    otherwise the field's error is the message of the first violated
    constraint in that order. *)
Theorem signup_password_field (zod : jsstring -> bool)
    (values : Signup.SignupFormData) :
  let errs := snd (zodResolver (Signup.signupSchema zod) values) in
  let p := Signup.password values in
  lookup "password" errs = password_first_violation p
  /\ (lookup "password" errs = None
      <-> p <> []
          /\ 8 <= List.length p <= 100
          /\ (exists c, In c p /\ is_uppercase c = true)
          /\ (exists c, In c p /\ is_lowercase c = true)
          /\ (exists c, In c p /\ is_digit c = true)).
Proof.
  intros errs p.
  assert (E : lookup "password" errs = password_first_violation p).
  { unfold errs. rewrite zodResolver_errors, lookup_parseErrorSchema.
    cbn [lookup].
    rewrite signupSchema_issues, signupObject_issues.
    rewrite !first_message_app, !first_message_issues_at.
    cbn [String.eqb Ascii.eqb Bool.eqb].
    rewrite password_schema_first. fold p.
    destruct (password_first_violation p); [reflexivity|].
    now destruct (jsstring_eqb _ _). }
  split; [exact E|].
  rewrite E. apply password_first_violation_none.
Qed.

Lemma jsstring_eqb_neq a b : a <> b -> jsstring_eqb a b = false.
Proof.
  intros H. unfold jsstring_eqb. now destruct (list_eq_dec N.eq_dec a b).
Qed.

(** C4: when every field of a signup submission passes its own checks but
    the two passwords differ, validation fails with the single error
    "Passwords don't match" on [confirmPassword], none on [password], and
    the submission does not proceed: [onSubmit] is not called, no effect is
    issued and the loading flag is untouched. *)
Theorem signup_mismatch_blocked (zod : jsstring -> bool)
    (values : Signup.SignupFormData) (w : World) :
  accepts (Signup.signupObject zod) values = true ->
  Signup.password values <> Signup.confirmPassword values ->
  let r := Signup.submit zod values w in
  r = (Normal tt,
       set_errors [("confirmPassword"%string, "Passwords don't match"%string)] w)
  /\ lookup "confirmPassword" (errors (snd r)) = Some "Passwords don't match"%string
  /\ lookup "password" (errors (snd r)) = None
  /\ log (snd r) = log w
  /\ isLoading (snd r) = isLoading w.
Proof.
  intros A N r.
  assert (O : snd (Signup.signupObject zod values) = []).
  { unfold accepts in A. now destruct (snd (Signup.signupObject zod values)). }
  assert (I : snd (Signup.signupSchema zod values)
              = [ {| path := ["confirmPassword"%string];
                     message := "Passwords don't match" |} ]).
  { now rewrite signupSchema_issues, O, (jsstring_eqb_neq _ _ N). }
  assert (E : r = (Normal tt,
    set_errors [("confirmPassword"%string, "Passwords don't match"%string)] w)).
  { unfold r, Signup.submit. rewrite handleSubmit_rejects.
    - now rewrite I.
    - unfold accepts. now rewrite I. }
  rewrite E. repeat split; reflexivity.
Qed.

Lemma signup_mismatch_blocked_witness :
  accepts (Signup.signupObject (regex_test Login.EMAIL_REGEX)) mismatched_signup = true
  /\ Signup.password mismatched_signup <> Signup.confirmPassword mismatched_signup
  /\ Signup.submit (regex_test Login.EMAIL_REGEX) mismatched_signup mounted
     = (Normal tt,
        set_errors [("confirmPassword"%string, "Passwords don't match"%string)]
          mounted).
Proof.
  assert (A : accepts (Signup.signupObject (regex_test Login.EMAIL_REGEX))
                mismatched_signup = true) by reflexivity.
  assert (N : Signup.password mismatched_signup
              <> Signup.confirmPassword mismatched_signup) by discriminate.
  split; [exact A|]. split; [exact N|].
  exact (proj1 (signup_mismatch_blocked (regex_test Login.EMAIL_REGEX)
                  mismatched_signup mounted A N)).
Defined.

(** ** The login schema *)

Lemma entries_app key a b :
  entries key (a ++ b) = entries key a + entries key b.
Proof. unfold entries. now rewrite filter_app, length_app. Qed.

(** The resolver records at most one entry for a field: one more than
    before exactly when the field had none and some issue names it. *)
Lemma entries_parseErrorSchema key issues :
  forall errs,
    entries key (parseErrorSchema issues errs)
    = entries key errs
      + match lookup key errs, first_message key issues with
        | None, Some _ => 1
        | _, _ => 0
        end.
Proof.
  unfold first_message.
  induction issues as [|i issues IH]; intros errs; simpl.
  - destruct (lookup key errs); lia.
  - destruct (lookup (path_join (path i)) errs) eqn:L.
    + rewrite IH. destruct (lookup key errs) eqn:K; [reflexivity|].
      destruct (String.eqb (path_join (path i)) key) eqn:E; [|reflexivity].
      apply String.eqb_eq in E. congruence.
    + rewrite IH, lookup_app, entries_app.
      unfold entries at 2. simpl.
      destruct (String.eqb (path_join (path i)) key) eqn:E.
      * apply String.eqb_eq in E. rewrite <- E, L. simpl. lia.
      * destruct (lookup key errs); simpl; lia.
Qed.

Lemma loginSchema_issues v :
  snd (Login.loginSchema v)
  = issues_at "email" (snd (ZodString_parse Login.email_schema (Login.email v)))
    ++ issues_at "password"
         (snd (ZodString_parse Login.password_schema (Login.password v))).
Proof.
  unfold Login.loginSchema.
  destruct (ZodString_parse Login.email_schema _),
    (ZodString_parse Login.password_schema _); reflexivity.
Qed.

(** The messages of the email field when the pattern check fails. *)
Lemma login_email_issues e :
  regex_test Login.EMAIL_REGEX (trim e) = false ->
  snd (ZodString_parse Login.email_schema e)
  = match trim e with
    | [] => ["Email is required"%string;
             "Please enter a valid email address"%string]
    | _ :: _ => ["Please enter a valid email address"%string]
    end.
Proof.
  intros H. unfold Login.email_schema, ck_nonempty.
  cbn [ZodString_parse check_issue]. rewrite H.
  now destruct (trim e).
Qed.

(** C5, as the code has it: when the email of a login submission fails
    the pattern check, the errors hold exactly one entry for [email]; its
    message is "Please enter a valid email address" when the trimmed email
    is not empty and "Email is required" when it is; [onSubmit] is not
    called, so no effect is issued (the loading flag is never set) and the
    loading flag keeps its value. *)
Theorem login_invalid_email_blocked (values : Login.LoginFormData) (w : World) :
  regex_test Login.EMAIL_REGEX (trim (Login.email values)) = false ->
  let r := Login.submit values w in
  entries "email" (errors (snd r)) = 1
  /\ lookup "email" (errors (snd r))
     = Some (match trim (Login.email values) with
             | [] => "Email is required"
             | _ :: _ => "Please enter a valid email address"
             end)%string
  /\ fst r = Normal tt
  /\ log (snd r) = log w
  /\ isLoading (snd r) = isLoading w.
Proof.
  intros H r.
  pose proof (login_email_issues _ H) as M.
  assert (R : accepts Login.loginSchema values = false).
  { unfold accepts. rewrite loginSchema_issues, M.
    now destruct (trim (Login.email values)). }
  unfold r, Login.submit. rewrite (handleSubmit_rejects _ _ _ _ R).
  cbn [fst snd set_errors errors log isLoading].
  rewrite entries_parseErrorSchema, lookup_parseErrorSchema.
  cbn [lookup entries filter List.length].
  rewrite loginSchema_issues, first_message_app, first_message_issues_at, M.
  cbn [String.eqb Ascii.eqb Bool.eqb].
  destruct (trim (Login.email values)); repeat split; reflexivity.
Qed.

Lemma login_invalid_email_blocked_witness :
  regex_test Login.EMAIL_REGEX (trim (Login.email invalid_email_login)) = false
  /\ lookup "email" (errors (snd (Login.submit invalid_email_login mounted)))
     = Some "Please enter a valid email address"%string
  /\ entries "email" (errors (snd (Login.submit invalid_email_login mounted))) = 1.
Proof.
  split; [reflexivity|]. split; [reflexivity|].
  exact (proj1 (login_invalid_email_blocked invalid_email_login mounted eq_refl)).
Defined.

(** C5 as stated fails on the empty email: it fails the pattern check,
    yet the message of its entry is "Email is required". *)
Lemma login_empty_email_message :
  ~ (forall (values : Login.LoginFormData) (w : World),
       regex_test Login.EMAIL_REGEX (trim (Login.email values)) = false ->
       lookup "email" (errors (snd (Login.submit values w)))
       = Some "Please enter a valid email address"%string).
Proof.
  intros H.
  specialize (H empty_email_login mounted eq_refl).
  vm_compute in H. discriminate H.
Qed.

(** ** The submission workflow *)


Lemma loginSchema_rememberMe v :
  Login.rememberMe (fst (Login.loginSchema v)) = Login.rememberMe v.
Proof.
  unfold Login.loginSchema.
  destruct (ZodString_parse Login.email_schema _),
    (ZodString_parse Login.password_schema _); reflexivity.
Qed.

Lemma loginSchema2_rememberMe zod v :
  Login.rememberMe (fst (Login2.loginSchema zod v)) = Login.rememberMe v.
Proof.
  unfold Login2.loginSchema.
  destruct (ZodString_parse (Login2.email_schema zod) _),
    (ZodString_parse Login2.password_schema _); reflexivity.
Qed.

(** Runs a handler on a symbolic world and reassociates its log. *)
Ltac run_handler :=
  cbv [try_finally try_catch bind await ret throw setIsLoading setIsSuccess
       localStorage_setItem_in localStorage_setItem toast toast_success
       toast_error setTimeout
       console_error emit];
  cbn [isLoading isSuccess errors localStorage log];
  rewrite <- ?app_assoc; reflexivity.

(** What the login [onSubmit] does, by the outcome of the awaited call and
    the opt-in: the completion, the state and the effects in order. *)
Lemma login_onSubmit_fulfilled data w :
  Login.onSubmit_with Fulfilled data w
  = (Normal tt,
     {| isLoading := false; isSuccess := isSuccess w; errors := errors w;
        localStorage :=
          (if truthy (Login.rememberMe data)
           then storage_set "rememberMe" "true" (localStorage w)
           else localStorage w);
        log :=
          log w
          ++ [SetIsLoading true]
          ++ (if truthy (Login.rememberMe data)
              then [LocalStorage (setItem "rememberMe" "true")] else [])
          ++ [Toast t_success "Login successful! Welcome back."
                "Redirecting to dashboard...";
              SetTimeout (navigate "/") 1000;
              SetIsLoading false] |}).
Proof.
  unfold Login.onSubmit_with, Login.onSubmit_in.
  destruct (truthy (Login.rememberMe data)); run_handler.
Qed.

Lemma login_onSubmit_rejected reason data w :
  Login.onSubmit_with (Rejected reason) data w
  = (Normal tt,
     {| isLoading := false; isSuccess := isSuccess w; errors := errors w;
        localStorage := localStorage w;
        log :=
          log w
          ++ [SetIsLoading true;
              ConsoleError "Login error:";
              Toast t_error "Login failed"
                "Invalid email or password. Please try again.";
              SetIsLoading false] |}).
Proof.
  unfold Login.onSubmit_with, Login.onSubmit_in. run_handler.
Qed.

(** The second login page has the same handler. *)
Lemma login2_onSubmit_with : Login2.onSubmit_with = Login.onSubmit_with.
Proof. reflexivity. Qed.

Lemma signup_onSubmit_fulfilled data w :
  Signup.onSubmit_with Fulfilled data w
  = (Normal tt,
     {| isLoading := true; isSuccess := true; errors := errors w;
        localStorage := localStorage w;
        log :=
          log w
          ++ [SetIsLoading true;
              SetIsSuccess true;
              Toast t_success "Account created successfully!"
                "Welcome aboard! Redirecting to login...";
              SetTimeout (navigate "/login") 2500] |}).
Proof.
  unfold Signup.onSubmit_with. run_handler.
Qed.

Lemma signup_onSubmit_rejected reason data w :
  Signup.onSubmit_with (Rejected reason) data w
  = (Normal tt,
     {| isLoading := false; isSuccess := isSuccess w; errors := errors w;
        localStorage := localStorage w;
        log :=
          log w
          ++ [SetIsLoading true;
              ConsoleError "Signup error:";
              Toast t_error "Registration failed"
                "Something went wrong. Please try again.";
              SetIsLoading false] |}).
Proof.
  unfold Signup.onSubmit_with. run_handler.
Qed.



(** C7: when the awaited call of a submission is rejected, [onSubmit]
    still completes normally (the error is caught), issues exactly one
    notification, the error toast "Login failed" (login pages) or
    "Registration failed" (signup), and leaves the loading flag false. *)
Theorem submission_failure_caught (reason : string) (w : World) :
  (forall data : Login.LoginFormData,
     let r := Login.onSubmit_with (Rejected reason) data w in
     fst r = Normal tt
     /\ isLoading (snd r) = false
     /\ toasts (log (snd r))
        = toasts (log w)
          ++ [Toast t_error "Login failed"
                "Invalid email or password. Please try again."]
     /\ log (snd r)
        = log w ++ [SetIsLoading true; ConsoleError "Login error:";
                    Toast t_error "Login failed"
                      "Invalid email or password. Please try again.";
                    SetIsLoading false])
  /\ (forall data : Login.LoginFormData,
        Login2.onSubmit_with (Rejected reason) data w
        = Login.onSubmit_with (Rejected reason) data w)
  /\ (forall data : Signup.SignupFormData,
        let r := Signup.onSubmit_with (Rejected reason) data w in
        fst r = Normal tt
        /\ isLoading (snd r) = false
        /\ toasts (log (snd r))
           = toasts (log w)
             ++ [Toast t_error "Registration failed"
                   "Something went wrong. Please try again."]
        /\ log (snd r)
           = log w ++ [SetIsLoading true; ConsoleError "Signup error:";
                       Toast t_error "Registration failed"
                         "Something went wrong. Please try again.";
                       SetIsLoading false]).
Proof.
  split; [|split].
  - intros data r. unfold r. rewrite login_onSubmit_rejected.
    cbn [fst snd isLoading log]. unfold toasts. rewrite filter_app.
    repeat split; reflexivity.
  - reflexivity.
  - intros data r. unfold r. rewrite signup_onSubmit_rejected.
    cbn [fst snd isLoading log]. unfold toasts. rewrite filter_app.
    repeat split; reflexivity.
Qed.

Lemma from_catch_unchanged l extra :
  forallb (fun e => negb (from_catch e)) extra = true ->
  filter from_catch (l ++ extra) = filter from_catch l.
Proof.
  intros H. rewrite filter_app.
  replace (filter from_catch extra) with (@nil Effect); [apply app_nil_r|].
  induction extra as [|e extra IH]; [reflexivity|].
  simpl in *. apply andb_true_iff in H as [E H].
  destruct (from_catch e); [discriminate|]. now apply IH.
Qed.

(** A form that validates and then runs a handler which, on a fulfilled
    call, adds no effect of a [catch] branch, adds none either. *)
Lemma submit_never_catches {D} (schema : D -> D * list ZodIssue)
    (onValid : D -> Eff unit) :
  (forall data w,
     filter from_catch (log (snd (onValid data w))) = filter from_catch (log w)) ->
  forall values w,
    filter from_catch (log (snd (handleSubmit (zodResolver schema) onValid values w)))
    = filter from_catch (log w).
Proof.
  intros H values w.
  destruct (accepts schema values) eqn:A.
  - rewrite (handleSubmit_accepts _ _ _ _ A). now rewrite H.
  - now rewrite (handleSubmit_rejects _ _ _ _ A).
Qed.

Lemma signup_onSubmit_never_catches data w :
  filter from_catch (log (snd (Signup.onSubmit data w))) = filter from_catch (log w).
Proof.
  unfold Signup.onSubmit.
  change Signup.simulated_call with Fulfilled.
  rewrite signup_onSubmit_fulfilled. cbn [snd log].
  now apply from_catch_unchanged.
Qed.

(** The login [onSubmit] where the box is not ticked does not reach the
    store: the browser's answer is irrelevant. *)
Lemma login_onSubmit_in_unticked browser apiCall data w :
  truthy (Login.rememberMe data) = false ->
  Login.onSubmit_in browser apiCall data w = Login.onSubmit_with apiCall data w.
Proof.
  intros T. unfold Login.onSubmit_with, Login.onSubmit_in. now rewrite T.
Qed.

(** The login [onSubmit] where the box is ticked and the browser throws on
    the write: the exception lands in the [catch] branch although the
    awaited call was fulfilled; neither the success toast nor the
    navigation follows. *)
Lemma login_onSubmit_in_throws reason data w :
  truthy (Login.rememberMe data) = true ->
  Login.onSubmit_in (Throws reason) Fulfilled data w
  = (Normal tt,
     {| isLoading := false; isSuccess := isSuccess w; errors := errors w;
        localStorage := localStorage w;
        log :=
          log w
          ++ [SetIsLoading true;
              ConsoleError "Login error:";
              Toast t_error "Login failed"
                "Invalid email or password. Please try again.";
              SetIsLoading false] |}).
Proof.
  intros T. unfold Login.onSubmit_in. rewrite T. run_handler.
Qed.

Lemma login2_onSubmit_in : Login2.onSubmit_in = Login.onSubmit_in.
Proof. reflexivity. Qed.

(** The effects of a [catch] branch a login form adds, by what the schema
    says, the box and the browser. *)
Lemma login_submit_in_catches schema browser values w :
  (forall v, Login.rememberMe (fst (schema v)) = Login.rememberMe v) ->
  filter from_catch
    (log (snd (handleSubmit (zodResolver schema)
                 (Login.onSubmit_in browser Fulfilled) values w)))
  = filter from_catch (log w)
    ++ (if accepts schema values && truthy (Login.rememberMe values)
           && write_throws browser
        then [ConsoleError "Login error:";
              Toast t_error "Login failed"
                "Invalid email or password. Please try again."]
        else []).
Proof.
  intros K. destruct (accepts schema values) eqn:A.
  - rewrite (handleSubmit_accepts _ _ _ _ A). cbn [andb].
    destruct (truthy (Login.rememberMe values)) eqn:T.
    + destruct browser as [|reason]; cbn [andb write_throws].
      * fold (Login.onSubmit_with Fulfilled (fst (schema values))).
        rewrite login_onSubmit_fulfilled, K, T. cbn [snd log set_errors].
        rewrite app_nil_r. now apply from_catch_unchanged.
      * rewrite login_onSubmit_in_throws by (now rewrite K).
        cbn [snd log set_errors]. now rewrite filter_app.
    + rewrite login_onSubmit_in_unticked by (now rewrite K).
      rewrite login_onSubmit_fulfilled, K, T. cbn [snd log set_errors andb].
      rewrite app_nil_r. now apply from_catch_unchanged.
  - rewrite (handleSubmit_rejects _ _ _ _ A). cbn. now rewrite app_nil_r.
Qed.

(** C8, as the code has it: the simulated call of each page, a promise
    whose executor only arms a timer that resolves it, is always
    fulfilled, and the signup page never issues an effect of its [catch]
    branch.  A login page issues the effects of its [catch] branch (the
    console error and the "Login failed" toast) exactly when the values are
    schema-valid, [rememberMe] is set and the browser throws on the write
    to local storage, which sits inside the [try]; otherwise it issues
    none. *)
Theorem catch_branch_reached_iff :
  Login.simulated_call = Fulfilled
  /\ Login2.simulated_call = Fulfilled
  /\ Signup.simulated_call = Fulfilled
  /\ (forall zod values w,
        filter from_catch (log (snd (Signup.submit zod values w)))
        = filter from_catch (log w))
  /\ (forall browser values w,
        filter from_catch (log (snd (Login.submit_in browser values w)))
        = filter from_catch (log w)
          ++ (if accepts Login.loginSchema values
                 && truthy (Login.rememberMe values) && write_throws browser
              then [ConsoleError "Login error:";
                    Toast t_error "Login failed"
                      "Invalid email or password. Please try again."]
              else []))
  /\ (forall zod browser values w,
        filter from_catch (log (snd (Login2.submit_in zod browser values w)))
        = filter from_catch (log w)
          ++ (if accepts (Login2.loginSchema zod) values
                 && truthy (Login.rememberMe values) && write_throws browser
              then [ConsoleError "Login error:";
                    Toast t_error "Login failed"
                      "Invalid email or password. Please try again."]
              else [])).
Proof.
  repeat split.
  - intros zod values w.
    apply (submit_never_catches (Signup.signupSchema zod)).
    exact signup_onSubmit_never_catches.
  - intros browser values w.
    exact (login_submit_in_catches Login.loginSchema browser values w
             loginSchema_rememberMe).
  - intros zod browser values w. unfold Login2.submit_in.
    rewrite login2_onSubmit_in.
    exact (login_submit_in_catches (Login2.loginSchema zod) browser values w
             (loginSchema2_rememberMe zod)).
Qed.

(** C8 as stated fails on the valid login with the box ticked in a
    browser whose storage is full: the promise is fulfilled and the
    [catch] branch runs. *)
Lemma login_catch_reached :
  ~ (forall browser values w,
       filter from_catch (log (snd (Login.submit_in browser values w)))
       = filter from_catch (log w)).
Proof.
  intros H.
  specialize (H (Throws "QuotaExceededError") valid_login mounted).
  vm_compute in H. discriminate H.
Qed.

(** C10: a successful signup leaves [isLoading] true: [onSubmit] sets it,
    sets [isSuccess] and never clears it (the effects it issues are listed
    in full); only its failure path clears it.  The login [onSubmit] ends
    with [isLoading] false whether the awaited call is fulfilled or
    rejected. *)
Theorem signup_success_keeps_loading :
  (forall (data : Signup.SignupFormData) (w : World),
     let w' := snd (Signup.onSubmit data w) in
     isLoading w' = true
     /\ isSuccess w' = true
     /\ log w'
        = log w ++ [SetIsLoading true; SetIsSuccess true;
                    Toast t_success "Account created successfully!"
                      "Welcome aboard! Redirecting to login...";
                    SetTimeout (navigate "/login") 2500])
  /\ (forall reason (data : Signup.SignupFormData) (w : World),
        isLoading (snd (Signup.onSubmit_with (Rejected reason) data w)) = false)
  /\ (forall apiCall (data : Login.LoginFormData) (w : World),
        isLoading (snd (Login.onSubmit_with apiCall data w)) = false
        /\ isLoading (snd (Login2.onSubmit_with apiCall data w)) = false).
Proof.
  split; [|split].
  - intros data w w'. unfold w', Signup.onSubmit.
    change Signup.simulated_call with Fulfilled.
    rewrite signup_onSubmit_fulfilled. repeat split; reflexivity.
  - intros reason data w. now rewrite signup_onSubmit_rejected.
  - intros apiCall data w. rewrite login2_onSubmit_with.
    destruct apiCall as [|reason];
      [rewrite login_onSubmit_fulfilled|rewrite login_onSubmit_rejected];
      split; reflexivity.
Qed.

(** ** The matcher on repeated character classes *)

Lemma one_char_class negated items :
  one_char (class_matches negated items) (regex_match (RClass negated items)).
Proof. intros pos s k. reflexivity. Qed.

Lemma one_char_any :
  one_char (fun c => negb (is_line_terminator c)) (regex_match RAny).
Proof. intros pos s k. reflexivity. Qed.

(** Zero or more iterations of a one-character matcher consume a prefix
    of code units that all satisfy the predicate. *)
Lemma star_loop_one_char f m :
  one_char f m ->
  forall fuel s pos k,
    List.length s <= fuel ->
    (star_loop m fuel pos s k = true
     <-> exists pre rest,
           s = pre ++ rest /\ forallb f pre = true
           /\ k (pos + List.length pre) rest = true).
Proof.
  intros Hm. induction fuel as [|fuel IH]; intros s pos k L.
  - destruct s as [|c s]; [|simpl in L; lia]. simpl. split.
    + intros H. exists [], []. simpl. now rewrite Nat.add_0_r.
    + intros (pre & rest & E & _ & K).
      symmetry in E. apply app_eq_nil in E as [-> ->].
      simpl in K. now rewrite Nat.add_0_r in K.
  - cbn [star_loop]. rewrite Hm. destruct s as [|c s].
    + simpl. split.
      * intros H. exists [], []. simpl. now rewrite Nat.add_0_r.
      * intros (pre & rest & E & _ & K).
        symmetry in E. apply app_eq_nil in E as [-> ->].
        simpl in K. now rewrite Nat.add_0_r in K.
    + assert (Lt : (List.length s <? List.length (c :: s)) = true)
        by (apply Nat.ltb_lt; simpl; lia).
      rewrite Lt, andb_true_l. simpl in L.
      rewrite orb_true_iff, andb_true_iff, (IH s (S pos) k) by lia. split.
      * intros [[C (pre & rest & E & F & K)]|K].
        -- exists (c :: pre), rest. simpl. rewrite C, F. subst s.
           repeat split. now rewrite <- Nat.add_succ_comm.
        -- exists [], (c :: s). simpl. now rewrite Nat.add_0_r.
      * intros (pre & rest & E & F & K). destruct pre as [|c' pre].
        -- right. simpl in E, K. subst rest. now rewrite Nat.add_0_r in K.
        -- left. simpl in E, F, K. injection E as <- ->.
           apply andb_true_iff in F as [C F]. split; [exact C|].
           exists pre, rest. repeat split; [exact F|].
           now rewrite Nat.add_succ_comm.
Qed.

(** At least [min] iterations of a one-character matcher. *)
Lemma repeat_from_one_char f m :
  one_char f m ->
  forall min s pos k,
    repeat_from m min pos s k = true
    <-> exists pre rest,
          s = pre ++ rest /\ min <= List.length pre /\ forallb f pre = true
          /\ k (pos + List.length pre) rest = true.
Proof.
  intros Hm. induction min as [|min IH]; intros s pos k.
  - cbn [repeat_from]. rewrite (star_loop_one_char f m Hm) by lia. split.
    + intros (pre & rest & E & F & K). exists pre, rest. repeat split; auto. lia.
    + intros (pre & rest & E & _ & F & K). now exists pre, rest.
  - cbn [repeat_from]. rewrite Hm. destruct s as [|c s].
    + split; [discriminate|].
      intros (pre & rest & E & L & _). symmetry in E.
      apply app_eq_nil in E as [-> _]. simpl in L. lia.
    + rewrite andb_true_iff, IH. split.
      * intros [C (pre & rest & E & L & F & K)].
        exists (c :: pre), rest. simpl. rewrite C, F. subst s.
        repeat split; [lia|]. now rewrite <- Nat.add_succ_comm.
      * intros (pre & rest & E & L & F & K). destruct pre as [|c' pre].
        -- simpl in L. lia.
        -- simpl in E, L, F, K. injection E as <- ->.
           apply andb_true_iff in F as [C F]. split; [exact C|].
           exists pre, rest. repeat split; [lia|exact F|].
           now rewrite Nat.add_succ_comm.
Qed.

(** A pattern anchored with [^] can only match at index 0. *)
Lemma regex_search_bol r s :
  forall pos, 0 < pos -> regex_search (RBol @@ r) pos s = false.
Proof.
  induction s as [|c s IH]; intros pos H; simpl;
    destruct pos as [|pos]; try lia; simpl; [reflexivity|].
  apply IH. lia.
Qed.

Lemma regex_test_bol r s :
  regex_test (RBol @@ r) s = regex_match r 0 s (fun _ _ => true).
Proof.
  unfold regex_test. destruct s as [|c s]; simpl.
  - now rewrite orb_false_r.
  - now rewrite regex_search_bol, orb_false_r by lia.
Qed.

Lemma forallb_pointwise {A} (f g : A -> bool) (l : list A) :
  (forall x, f x = g x) -> forallb f l = forallb g l.
Proof.
  intros E. induction l as [|x l IH]; simpl; [reflexivity|].
  now rewrite E, IH.
Qed.

(** A separator that occurs on neither side splits a list in one way. *)
Lemma split_unique {A} (x : A) (a b a' b' : list A) :
  ~ In x a -> ~ In x b -> a ++ x :: b = a' ++ x :: b' -> a = a' /\ b = b'.
Proof.
  revert a'. induction a as [|y a IH]; intros a' Ha Hb E.
  - destruct a' as [|y' a']; simpl in E.
    + injection E as ->. now split.
    + injection E as <- ->. exfalso. apply Hb, in_elt.
  - destruct a' as [|y' a']; simpl in E.
    + injection E as -> _. exfalso. apply Ha. now left.
    + injection E as <- E.
      destruct (IH a') as [-> ->]; auto.
      intros H. apply Ha. now right.
Qed.

(** ** The email pattern of the first login page *)


Lemma email_local_char c : class_matches false email_local c = is_local_char c.
Proof.
  unfold class_matches, is_local_char, is_alphanumeric, is_lowercase,
    is_uppercase, is_digit.
  simpl. now rewrite !orb_false_r, !orb_assoc.
Qed.

Lemma email_domain_char c : class_matches false email_domain c = is_domain_char c.
Proof.
  unfold class_matches, is_domain_char, is_alphanumeric, is_lowercase,
    is_uppercase, is_digit.
  simpl. now rewrite !orb_false_r, !orb_assoc.
Qed.

Lemma email_tld_char c : class_matches false email_tld c = is_letter c.
Proof.
  unfold class_matches, is_letter, is_lowercase, is_uppercase.
  simpl. now rewrite !orb_false_r.
Qed.

(** [[a-zA-Z]{2,}$] *)
Lemma email_tail_tld pos s :
  regex_match (RRepeat 2 (RClass false email_tld) @@ REol) pos s (fun _ _ => true)
  = true
  <-> 2 <= List.length s /\ forallb is_letter s = true.
Proof.
  cbn [regex_match].
  rewrite (repeat_from_one_char _ _ (one_char_class false email_tld)). split.
  - intros (pre & rest & E & L & F & K).
    destruct rest; [|discriminate]. rewrite app_nil_r in E. subst pre.
    split; [exact L|].
    now rewrite <- (forallb_pointwise _ _ s email_tld_char).
  - intros [L F]. exists s, []. rewrite app_nil_r.
    now rewrite (forallb_pointwise _ _ s email_tld_char).
Qed.

(** [[a-zA-Z0-9.-]+\.[a-zA-Z]{2,}$] *)
Lemma email_tail_domain pos s :
  regex_match (RRepeat 1 (RClass false email_domain) @@ RChar "."
               @@ RRepeat 2 (RClass false email_tld) @@ REol)
    pos s (fun _ _ => true) = true
  <-> exists domain tld,
        s = domain ++ js "." ++ tld
        /\ domain <> [] /\ forallb is_domain_char domain = true
        /\ 2 <= List.length tld /\ forallb is_letter tld = true.
Proof.
  cbn [regex_match].
  rewrite (repeat_from_one_char _ _ (one_char_class false email_domain)). split.
  - intros (pre & rest & E & L & F & K).
    destruct rest as [|c rest]; [discriminate|].
    apply andb_true_iff in K as [C K]. apply N.eqb_eq in C. subst c.
    apply (email_tail_tld (S (pos + List.length pre)) rest) in K as [L3 F3].
    exists pre, rest. repeat split; auto.
    + intros ->. simpl in L. lia.
    + now rewrite <- (forallb_pointwise _ _ pre email_domain_char).
  - intros (domain & tld & E & N & F & L3 & F3).
    exists domain, (js "." ++ tld). repeat split; auto.
    + destruct domain; [congruence|simpl; lia].
    + now rewrite (forallb_pointwise _ _ domain email_domain_char).
    + cbn. apply (email_tail_tld (S (pos + List.length domain)) tld). now split.
Qed.

(** [[a-zA-Z0-9._%+-]+@[a-zA-Z0-9.-]+\.[a-zA-Z]{2,}$] *)
Lemma email_tail_local pos s :
  regex_match (RRepeat 1 (RClass false email_local) @@ RChar "@"
               @@ RRepeat 1 (RClass false email_domain) @@ RChar "."
               @@ RRepeat 2 (RClass false email_tld) @@ REol)
    pos s (fun _ _ => true) = true
  <-> exists local domain tld,
        s = local ++ js "@" ++ domain ++ js "." ++ tld
        /\ local <> [] /\ forallb is_local_char local = true
        /\ domain <> [] /\ forallb is_domain_char domain = true
        /\ 2 <= List.length tld /\ forallb is_letter tld = true.
Proof.
  cbn [regex_match].
  rewrite (repeat_from_one_char _ _ (one_char_class false email_local)). split.
  - intros (pre & rest & E & L & F & K).
    destruct rest as [|c rest]; [discriminate|].
    apply andb_true_iff in K as [C K]. apply N.eqb_eq in C. subst c.
    apply (email_tail_domain (S (pos + List.length pre)) rest) in K
      as (domain & tld & E2 & N2 & F2 & L3 & F3).
    exists pre, domain, tld. subst rest. repeat split; auto.
    + intros ->. simpl in L. lia.
    + now rewrite <- (forallb_pointwise _ _ pre email_local_char).
  - intros (local & domain & tld & E & N & F & N2 & F2 & L3 & F3).
    exists local, (js "@" ++ domain ++ js "." ++ tld). repeat split; auto.
    + destruct local; [congruence|simpl; lia].
    + now rewrite (forallb_pointwise _ _ local email_local_char).
    + cbn. apply (email_tail_domain (S (pos + List.length local))).
      now exists domain, tld.
Qed.

(** [.*\.@] at the start of the input. *)
Lemma email_lookahead s :
  regex_match (RRepeat 0 RAny @@ RChar "." @@ RChar "@") 0 s (fun _ _ => true)
  = true
  <-> exists pre rest,
        s = pre ++ js ".@" ++ rest
        /\ forallb (fun c => negb (is_line_terminator c)) pre = true.
Proof.
  cbn [regex_match].
  rewrite (repeat_from_one_char _ _ one_char_any). split.
  - intros (pre & rest & E & _ & F & K).
    destruct rest as [|c rest]; [discriminate|].
    apply andb_true_iff in K as [C K]. apply N.eqb_eq in C. subst c.
    destruct rest as [|c rest]; [discriminate|].
    apply andb_true_iff in K as [C _]. apply N.eqb_eq in C. subst c.
    now exists pre, rest.
  - intros (pre & rest & E & F).
    exists pre, (js ".@" ++ rest). repeat split; auto. lia.
Qed.

Lemma local_char_not_terminator c :
  is_local_char c = true -> negb (is_line_terminator c) = true.
Proof.
  unfold is_local_char, is_alphanumeric, is_lowercase, is_uppercase, is_digit,
    is_line_terminator.
  rewrite !orb_true_iff, !andb_true_iff, !N.leb_le, !N.eqb_eq.
  intros H. apply negb_true_iff.
  rewrite !orb_false_iff, !N.eqb_neq. lia.
Qed.

Lemma forallb_not_in (f : code_unit -> bool) (x : code_unit) l :
  f x = false -> forallb f l = true -> ~ In x l.
Proof.
  intros Hx F H. rewrite forallb_forall in F. apply F in H. congruence.
Qed.

Lemma email_regex_shape (s : jsstring) :
  regex_test Login.EMAIL_REGEX s = true <-> email_shape s.
Proof.
  unfold Login.EMAIL_REGEX. rewrite regex_test_bol.
  change (regex_match (RNegLook (RChar ".") @@ ?r) 0 s ?k)
    with (negb (regex_match (RChar ".") 0 s (fun _ _ => true))
          && regex_match r 0 s k).
  change (regex_match (RNegLook ?l @@ ?r) 0 s ?k)
    with (negb (regex_match l 0 s (fun _ _ => true)) && regex_match r 0 s k).
  rewrite !andb_true_iff, !negb_true_iff.
  fold email_local email_domain email_tld.
  rewrite email_tail_local. unfold email_shape. split.
  - intros (D & A & local & domain & tld & E & N & F & N2 & F2 & L3 & F3).
    exists local, domain, tld. repeat split; auto.
    + destruct local as [|c local]; [congruence|].
      subst s. cbn in D. rewrite andb_true_r in D.
      apply N.eqb_neq in D. simpl. congruence.
    + intros La.
      assert (A' : regex_match (RRepeat 0 RAny @@ RChar "." @@ RChar "@") 0 s
                     (fun _ _ => true) = true); [|congruence].
      apply email_lookahead.
      pose proof (@app_removelast_last code_unit local 0%N N) as R. rewrite La in R.
      rewrite R in E. rewrite R, forallb_app in F.
      apply andb_true_iff in F as [F _].
      exists (removelast local), (domain ++ js "." ++ tld). split.
      * rewrite E, <- app_assoc. reflexivity.
      * rewrite forallb_forall in *. intros c H.
        now apply local_char_not_terminator, F.
  - intros (local & domain & tld & E & N & F & Hd & La & N2 & F2 & L3 & F3).
    split; [|split].
    + destruct local as [|c local]; [congruence|].
      subst s. cbn. rewrite andb_true_r. apply N.eqb_neq.
      intros ->. now apply Hd.
    + apply not_true_is_false. intros A. apply email_lookahead in A
        as (pre & rest & E' & _).
      rewrite E in E'.
      assert (E2 : local ++ 64%N :: (domain ++ js "." ++ tld)
                   = (pre ++ [46%N]) ++ 64%N :: rest)
        by (rewrite <- app_assoc; exact E').
      clear E'. apply split_unique in E2 as [E' _].
      * apply La. rewrite E'. apply last_last.
      * now apply (forallb_not_in is_local_char 64%N local).
      * intros H. apply in_app_or in H as [H|H].
        -- now apply (forallb_not_in is_domain_char 64%N domain) in H.
        -- destruct H as [H|H]; [discriminate|].
           now apply (forallb_not_in is_letter 64%N tld) in H.
    + now exists local, domain, tld.
Qed.

(** X1: the email pattern of the first login page accepts exactly the
    strings made of a local part of [[a-zA-Z0-9._%+-]] that neither starts
    nor ends with a dot, [@], a non-empty domain of [[a-zA-Z0-9.-]], a dot
    and at least two ASCII letters. *)
Theorem EMAIL_REGEX_shape (s : jsstring) :
  regex_test Login.EMAIL_REGEX s = true <-> email_shape s.
Proof. exact (email_regex_shape s). Qed.

(** ** The pattern of the full name *)

Lemma name_class_char c :
  class_matches false [lower_az; upper_AZ; CSpace] c = is_name_char c.
Proof.
  unfold class_matches, is_name_char, is_letter, is_lowercase, is_uppercase.
  simpl. now rewrite !orb_false_r, !orb_assoc.
Qed.

(** [/^[a-zA-Z\s]+$/] accepts the non-empty strings of letters and white
    space. *)
Lemma NAME_REGEX_shape s :
  regex_test Signup.NAME_REGEX s
  = negb (match s with [] => true | _ :: _ => false end)
    && forallb is_name_char s.
Proof.
  apply eq_true_iff_eq.
  unfold Signup.NAME_REGEX. rewrite regex_test_bol. cbn [regex_match].
  rewrite (repeat_from_one_char _ _ (one_char_class false [lower_az; upper_AZ; CSpace])).
  rewrite andb_true_iff, negb_true_iff. split.
  - intros (pre & rest & E & L & F & K).
    destruct rest; [|discriminate]. rewrite app_nil_r in E. subst pre.
    rewrite (forallb_pointwise _ _ s name_class_char) in F.
    split; [|exact F]. destruct s; [simpl in L; lia|reflexivity].
  - intros [N F]. exists s, []. rewrite app_nil_r.
    rewrite (forallb_pointwise _ _ s name_class_char).
    repeat split; auto. destruct s; [discriminate|simpl; lia].
Qed.

(** ** The errors of a form, entry by entry *)

Lemma parseErrorSchema_app a b :
  forall errs,
    parseErrorSchema (a ++ b) errs = parseErrorSchema b (parseErrorSchema a errs).
Proof.
  induction a as [|i a IH]; intros errs; simpl; [reflexivity|].
  destruct (lookup (path_join (path i)) errs); apply IH.
Qed.

(** The issues of one field add one entry, for the first of them, unless
    the field has an entry already. *)
Lemma parseErrorSchema_issues_at key messages :
  forall errs,
    parseErrorSchema (issues_at key messages) errs
    = match lookup key errs with
      | Some _ => errs
      | None => errs ++ field_entry key (hd_error messages)
      end.
Proof.
  induction messages as [|m messages IH]; intros errs; simpl.
  - destruct (lookup key errs); [reflexivity|]. now rewrite app_nil_r.
  - change (path_join [key]) with key.
    destruct (lookup key errs) eqn:L.
    + fold (issues_at key messages). now rewrite IH, L.
    + fold (issues_at key messages).
      now rewrite IH, lookup_app, L, String.eqb_refl.
Qed.

Lemma issues_at_app key a b :
  issues_at key (a ++ b) = issues_at key a ++ issues_at key b.
Proof. apply map_app. Qed.

Lemma accepts_no_errors {D} (schema : D -> D * list ZodIssue) values :
  accepts schema values = true <-> snd (zodResolver schema values) = [].
Proof.
  destruct (accepts schema values) eqn:A.
  - now rewrite (zodResolver_accepts _ _ A).
  - destruct (zodResolver_rejects _ _ A) as (e & errs & ->).
    split; discriminate.
Qed.

Lemma field_entry_nil key o : field_entry key o = [] <-> o = None.
Proof. destruct o; simpl; split; congruence. Qed.

(** *** The first login page *)

Lemma login_email_first e :
  hd_error (snd (ZodString_parse Login.email_schema e))
  = login_email_violation (trim e).
Proof.
  unfold Login.email_schema, login_email_violation, ck_nonempty.
  cbn [ZodString_parse check_issue].
  destruct (trim e) as [|c t].
  - now destruct (regex_test Login.EMAIL_REGEX []).
  - now destruct (regex_test Login.EMAIL_REGEX (c :: t)).
Qed.

Lemma login_password_first p :
  hd_error (snd (ZodString_parse Login.password_schema p))
  = login_password_violation p.
Proof.
  unfold Login.password_schema, login_password_violation, ck_nonempty.
  cbn [ZodString_parse check_issue].
  destruct p as [|c p]; [reflexivity|].
  set (pw := c :: p).
  replace (List.length pw <? 1) with false
    by (symmetry; apply Nat.ltb_ge; simpl; lia).
  destruct (List.length pw <? 8), (15 <? List.length pw); reflexivity.
Qed.

Lemma login_errors_entries (values : Login.LoginFormData) :
  snd (zodResolver Login.loginSchema values)
  = field_entry "email" (login_email_violation (trim (Login.email values)))
    ++ field_entry "password" (login_password_violation (Login.password values)).
Proof.
  rewrite zodResolver_errors, loginSchema_issues, parseErrorSchema_app.
  rewrite !parseErrorSchema_issues_at, login_email_first, login_password_first.
  cbn [lookup app].
  now destruct (login_email_violation (trim (Login.email values))).
Qed.

(** X2: the errors the first login page shows after a submit attempt are,
    in this order, the entry of the email (required when the trimmed email
    is empty, invalid when it fails the pattern) and the entry of the
    password (required when empty, too short under 8, too long over 15);
    a field whose checks pass has no entry. *)
Theorem login_form_errors (values : Login.LoginFormData) :
  snd (zodResolver Login.loginSchema values)
  = field_entry "email" (login_email_violation (trim (Login.email values)))
    ++ field_entry "password" (login_password_violation (Login.password values)).
Proof. exact (login_errors_entries values). Qed.

Lemma login_password_violation_none p :
  login_password_violation p = None <-> 8 <= List.length p <= 15.
Proof.
  unfold login_password_violation.
  destruct p as [|c p]; [split; [discriminate|simpl; lia]|].
  set (pw := c :: p).
  destruct (Nat.ltb_spec (List.length pw) 8); [split; [discriminate|lia]|].
  destruct (Nat.ltb_spec 15 (List.length pw)); [split; [discriminate|lia]|].
  split; [lia|reflexivity].
Qed.

Lemma login_email_violation_none e :
  login_email_violation e = None <-> email_shape e.
Proof.
  rewrite <- email_regex_shape. unfold login_email_violation.
  destruct e as [|c e].
  - split; [discriminate|]. intros H. vm_compute in H. discriminate.
  - destruct (regex_test Login.EMAIL_REGEX (c :: e)); split; congruence.
Qed.

(** X3: the first login page lets a submission through exactly when the
    trimmed email has the shape of the email pattern and the password has
    between 8 and 15 code units. *)
Theorem login_accepts_iff (values : Login.LoginFormData) :
  accepts Login.loginSchema values = true
  <-> email_shape (trim (Login.email values))
      /\ 8 <= List.length (Login.password values) <= 15.
Proof.
  rewrite accepts_no_errors, login_errors_entries.
  rewrite <- login_email_violation_none, <- login_password_violation_none.
  split.
  - intros H. apply app_eq_nil in H as [E P].
    now rewrite field_entry_nil in E, P.
  - intros [-> ->]. reflexivity.
Qed.

(** *** The second login page *)

Lemma loginSchema2_issues zod v :
  snd (Login2.loginSchema zod v)
  = issues_at "email"
      (snd (ZodString_parse (Login2.email_schema zod) (Login.email v)))
    ++ issues_at "password"
         (snd (ZodString_parse Login2.password_schema (Login.password v))).
Proof.
  unfold Login2.loginSchema.
  destruct (ZodString_parse (Login2.email_schema zod) _),
    (ZodString_parse Login2.password_schema _); reflexivity.
Qed.

Lemma zod_email_first (zod : jsstring -> bool) required invalid long e :
  hd_error
    (snd (ZodString_parse
            [ck_trim; ck_nonempty required; ck_email zod invalid; ck_max 255 long]
            e))
  = match trim e with
    | [] => Some required
    | _ :: _ =>
        if negb (zod (trim e)) then Some invalid
        else if 255 <? List.length (trim e) then Some long
        else None
    end.
Proof.
  unfold ck_nonempty. cbn [ZodString_parse check_issue].
  destruct (trim e) as [|c t] eqn:T.
  - now destruct (zod []).
  - replace (List.length (c :: t) <? 1) with false
      by (symmetry; apply Nat.ltb_ge; simpl; lia).
    destruct (zod (c :: t)), (255 <? List.length (c :: t)); reflexivity.
Qed.

Lemma login2_password_first p :
  hd_error (snd (ZodString_parse Login2.password_schema p))
  = login2_password_violation p.
Proof.
  unfold Login2.password_schema, login2_password_violation, ck_nonempty.
  cbn [ZodString_parse check_issue].
  destruct p as [|c p]; [reflexivity|].
  set (pw := c :: p).
  replace (List.length pw <? 1) with false
    by (symmetry; apply Nat.ltb_ge; simpl; lia).
  destruct (List.length pw <? 6), (100 <? List.length pw); reflexivity.
Qed.

Lemma zod_email_violation_none zod e :
  zod_email_violation zod e = None
  <-> e <> [] /\ zod e = true /\ List.length e <= 255.
Proof.
  unfold zod_email_violation.
  destruct e as [|c e]; [split; [discriminate|intros [H _]; now destruct H]|].
  set (em := c :: e).
  destruct (zod em); cbn [negb];
    [|split; [discriminate|intros (_ & ? & _); discriminate]].
  destruct (Nat.ltb_spec 255 (List.length em)); [split; [discriminate|lia]|].
  split; [intros _|reflexivity]. repeat split; [discriminate|lia].
Qed.

Lemma login2_password_violation_none p :
  login2_password_violation p = None <-> 6 <= List.length p <= 100.
Proof.
  unfold login2_password_violation.
  destruct p as [|c p]; [split; [discriminate|simpl; lia]|].
  set (pw := c :: p).
  destruct (Nat.ltb_spec (List.length pw) 6); [split; [discriminate|lia]|].
  destruct (Nat.ltb_spec 100 (List.length pw)); [split; [discriminate|lia]|].
  split; [lia|reflexivity].
Qed.

Lemma login2_errors_entries (zod : jsstring -> bool) (values : Login.LoginFormData) :
  snd (zodResolver (Login2.loginSchema zod) values)
  = field_entry "email" (zod_email_violation zod (trim (Login.email values)))
    ++ field_entry "password" (login2_password_violation (Login.password values)).
Proof.
  rewrite zodResolver_errors, loginSchema2_issues, parseErrorSchema_app.
  rewrite !parseErrorSchema_issues_at.
  unfold Login2.email_schema. rewrite zod_email_first, login2_password_first.
  fold (zod_email_violation zod (trim (Login.email values))).
  cbn [lookup app].
  now destruct (zod_email_violation zod (trim (Login.email values))).
Qed.

(** X4: the second login page reports, per field, the first failed check
    (email: required, invalid for zod's pattern, longer than 255, on the
    trimmed value; password: required, shorter than 6, longer than 100), and
    lets a submission through exactly when the trimmed email is non-empty,
    passes zod's pattern and has at most 255 code units and the password
    has between 6 and 100. *)
Theorem login2_form_errors (zod : jsstring -> bool) (values : Login.LoginFormData) :
  snd (zodResolver (Login2.loginSchema zod) values)
  = field_entry "email" (zod_email_violation zod (trim (Login.email values)))
    ++ field_entry "password" (login2_password_violation (Login.password values))
  /\ (accepts (Login2.loginSchema zod) values = true
      <-> trim (Login.email values) <> []
          /\ zod (trim (Login.email values)) = true
          /\ List.length (trim (Login.email values)) <= 255
          /\ 6 <= List.length (Login.password values) <= 100).
Proof.
  split; [apply login2_errors_entries|].
  rewrite accepts_no_errors, login2_errors_entries. split.
  - intros H. apply app_eq_nil in H as [A B].
    rewrite field_entry_nil in A, B.
    apply zod_email_violation_none in A as (A1 & A2 & A3).
    apply login2_password_violation_none in B. auto.
  - intros (A1 & A2 & A3 & B).
    rewrite (proj2 (zod_email_violation_none zod _) (conj A1 (conj A2 A3))).
    now rewrite (proj2 (login2_password_violation_none _) B).
Qed.

(** *** The signup page *)

Lemma fullName_first n :
  hd_error (snd (ZodString_parse Signup.fullName_schema n))
  = fullName_violation (trim n).
Proof.
  unfold Signup.fullName_schema, fullName_violation, ck_nonempty.
  cbn [ZodString_parse check_issue]. rewrite NAME_REGEX_shape.
  destruct (trim n) as [|c t]; [reflexivity|].
  set (nm := c :: t). cbn [negb andb].
  replace (List.length nm <? 1) with false
    by (symmetry; apply Nat.ltb_ge; simpl; lia).
  destruct (List.length nm <? 2), (100 <? List.length nm),
    (forallb is_name_char nm); reflexivity.
Qed.

Lemma confirmPassword_first p c :
  hd_error
    (snd (ZodString_parse Signup.confirmPassword_schema c)
     ++ (if jsstring_eqb p c then [] else ["Passwords don't match"%string]))
  = confirmPassword_violation p c.
Proof.
  unfold Signup.confirmPassword_schema, confirmPassword_violation, ck_nonempty.
  cbn [ZodString_parse check_issue].
  destruct c as [|x c]; [reflexivity|].
  replace (List.length (x :: c) <? 1) with false
    by (symmetry; apply Nat.ltb_ge; simpl; lia).
  now destruct (jsstring_eqb p (x :: c)).
Qed.

Lemma signup_errors_entries (zod : jsstring -> bool)
    (values : Signup.SignupFormData) :
  snd (zodResolver (Signup.signupSchema zod) values)
  = field_entry "fullName" (fullName_violation (trim (Signup.fullName values)))
    ++ field_entry "email" (zod_email_violation zod (trim (Signup.email values)))
    ++ field_entry "password" (password_first_violation (Signup.password values))
    ++ field_entry "confirmPassword"
         (confirmPassword_violation (Signup.password values)
            (Signup.confirmPassword values)).
Proof.
  rewrite zodResolver_errors, signupSchema_issues, signupObject_issues.
  replace (if jsstring_eqb (Signup.password values) (Signup.confirmPassword values)
           then []
           else [ {| path := ["confirmPassword"%string];
                     message := "Passwords don't match" |} ])
    with (issues_at "confirmPassword"
            (if jsstring_eqb (Signup.password values) (Signup.confirmPassword values)
             then [] else ["Passwords don't match"%string]))
    by (now destruct (jsstring_eqb _ _)).
  rewrite <- !app_assoc, <- issues_at_app.
  rewrite !parseErrorSchema_app, !parseErrorSchema_issues_at.
  unfold Signup.email_schema.
  rewrite fullName_first, zod_email_first, password_schema_first,
    confirmPassword_first.
  fold (zod_email_violation zod (trim (Signup.email values))).
  destruct (fullName_violation _), (zod_email_violation _ _),
    (password_first_violation _), (confirmPassword_violation _ _); reflexivity.
Qed.

(** X5: the errors the signup page shows after a submit attempt are, in
    this order, the entries of the full name (on the trimmed value:
    required, under 2, over 100, a character that is neither a letter nor
    white space), of the email, of the password and of the confirmation
    (required when empty, otherwise "Passwords don't match" when it differs
    from the password), each the first failed check of its field. *)
Theorem signup_form_errors (zod : jsstring -> bool)
    (values : Signup.SignupFormData) :
  snd (zodResolver (Signup.signupSchema zod) values)
  = field_entry "fullName" (fullName_violation (trim (Signup.fullName values)))
    ++ field_entry "email" (zod_email_violation zod (trim (Signup.email values)))
    ++ field_entry "password" (password_first_violation (Signup.password values))
    ++ field_entry "confirmPassword"
         (confirmPassword_violation (Signup.password values)
            (Signup.confirmPassword values)).
Proof. exact (signup_errors_entries zod values). Qed.

Lemma fullName_violation_none n :
  fullName_violation n = None
  <-> 2 <= List.length n <= 100 /\ forallb is_name_char n = true.
Proof.
  unfold fullName_violation.
  destruct n as [|c n]; [split; [discriminate|simpl; lia]|].
  set (nm := c :: n).
  destruct (Nat.ltb_spec (List.length nm) 2); [split; [discriminate|lia]|].
  destruct (Nat.ltb_spec 100 (List.length nm)); [split; [discriminate|lia]|].
  destruct (forallb is_name_char nm); cbn [negb];
    [|split; [discriminate|intros [_ ?]; discriminate]].
  split; [intros _|reflexivity]. split; [lia|reflexivity].
Qed.

Lemma jsstring_eqb_eq a b : jsstring_eqb a b = true <-> a = b.
Proof.
  unfold jsstring_eqb. destruct (list_eq_dec N.eq_dec a b); split; congruence.
Qed.

(** X6: the signup page lets a submission through exactly when the trimmed
    name has 2 to 100 code units, all letters or white space, the trimmed
    email is non-empty, passes zod's pattern and has at most 255 code
    units, the password meets its own rule and the confirmation equals the
    password. *)
Theorem signup_accepts_iff (zod : jsstring -> bool)
    (values : Signup.SignupFormData) :
  accepts (Signup.signupSchema zod) values = true
  <-> (2 <= List.length (trim (Signup.fullName values)) <= 100
       /\ forallb is_name_char (trim (Signup.fullName values)) = true)
      /\ (trim (Signup.email values) <> []
          /\ zod (trim (Signup.email values)) = true
          /\ List.length (trim (Signup.email values)) <= 255)
      /\ password_first_violation (Signup.password values) = None
      /\ Signup.confirmPassword values = Signup.password values.
Proof.
  rewrite accepts_no_errors, signup_errors_entries.
  rewrite <- fullName_violation_none, <- zod_email_violation_none.
  split.
  - intros H.
    apply app_eq_nil in H as [A H]. apply app_eq_nil in H as [B H].
    apply app_eq_nil in H as [C D].
    rewrite field_entry_nil in A, B, C, D. repeat split; auto.
    unfold confirmPassword_violation in D.
    destruct (Signup.confirmPassword values) as [|x c] eqn:Ec.
    + discriminate.
    + destruct (jsstring_eqb (Signup.password values) (x :: c)) eqn:J;
        [|discriminate].
      symmetry. now apply jsstring_eqb_eq.
  - intros (-> & -> & P & Ec). rewrite P. cbn [field_entry app].
    apply field_entry_nil. unfold confirmPassword_violation. rewrite Ec.
    destruct (Signup.password values) as [|x p]; [discriminate P|].
    now rewrite (proj2 (jsstring_eqb_eq _ _) eq_refl).
Qed.

(** ** Trimming *)

Lemma trimStart_spaces pre s :
  forallb is_js_space pre = true -> trimStart (pre ++ s) = trimStart s.
Proof.
  induction pre as [|c pre IH]; simpl; [reflexivity|].
  intros H. apply andb_true_iff in H as [C H]. rewrite C. now apply IH.
Qed.

Lemma trimStart_nil s : trimStart s = [] <-> forallb is_js_space s = true.
Proof.
  induction s as [|c s IH]; simpl; [now split|].
  destruct (is_js_space c); simpl; [exact IH|]. split; discriminate.
Qed.

(** What [trimStart] leaves is empty or starts with a code unit that is
    not white space. *)
Lemma trimStart_head s :
  match trimStart s with
  | [] => True
  | c :: _ => is_js_space c = false
  end.
Proof.
  induction s as [|c s IH]; simpl; [exact I|].
  destruct (is_js_space c) eqn:C; [exact IH|exact C].
Qed.

Lemma trimStart_fixed s :
  match s with [] => True | c :: _ => is_js_space c = false end ->
  trimStart s = s.
Proof. destruct s as [|c s]; simpl; [reflexivity|]. now intros ->. Qed.

Lemma trimStart_app_keep s post :
  trimStart s <> [] -> trimStart (s ++ post) = trimStart s ++ post.
Proof.
  induction s as [|c s IH]; simpl; [congruence|].
  destruct (is_js_space c); [exact IH|reflexivity].
Qed.

Lemma forallb_rev {A} (f : A -> bool) l : forallb f (rev l) = forallb f l.
Proof.
  induction l as [|x l IH]; simpl; [reflexivity|].
  rewrite forallb_app, IH. simpl. rewrite andb_true_r. apply andb_comm.
Qed.

Lemma trimEnd_spaces s post :
  forallb is_js_space post = true -> trimEnd (s ++ post) = trimEnd s.
Proof.
  intros H. unfold trimEnd. rewrite rev_app_distr, trimStart_spaces; [reflexivity|].
  now rewrite forallb_rev.
Qed.

Lemma trimEnd_nil s : trimEnd s = [] <-> forallb is_js_space s = true.
Proof.
  unfold trimEnd. rewrite <- (forallb_rev _ s), <- trimStart_nil. split.
  - intros H. apply (f_equal (@rev _)) in H. now rewrite rev_involutive in H.
  - now intros ->.
Qed.

(** [trimEnd] keeps a head that is not white space. *)
Lemma trimEnd_head c s :
  is_js_space c = false -> exists u, trimEnd (c :: s) = c :: u.
Proof.
  intros C. unfold trimEnd. simpl.
  assert (H : forall l, exists l', trimStart (l ++ [c]) = l' ++ [c]).
  { induction l as [|x l [l' IH]]; simpl.
    - rewrite C. now exists [].
    - destruct (is_js_space x); [now exists l'|].
      exists (x :: l). reflexivity. }
  destruct (H (rev s)) as [l' ->]. rewrite rev_app_distr. simpl. now exists (rev l').
Qed.

Lemma trimEnd_idempotent s : trimEnd (trimEnd s) = trimEnd s.
Proof.
  unfold trimEnd. rewrite rev_involutive. f_equal.
  apply trimStart_fixed. apply trimStart_head.
Qed.

(** An input of white space only trims to the empty string, and only
    such an input does. *)
Lemma trim_nil s : trim s = [] <-> forallb is_js_space s = true.
Proof.
  unfold trim. rewrite trimEnd_nil. split.
  - intros H. apply trimStart_nil.
    pose proof (trimStart_head s) as T.
    destruct (trimStart s) as [|c t]; [reflexivity|].
    simpl in H. rewrite T in H. discriminate.
  - intros H. apply trimStart_nil in H. now rewrite H.
Qed.

Lemma trim_idempotent s : trim (trim s) = trim s.
Proof.
  unfold trim. pose proof (trimStart_head s) as T.
  destruct (trimStart s) as [|c t] eqn:E; [reflexivity|].
  destruct (trimEnd_head c t T) as [u U].
  rewrite U at 1. simpl. rewrite T, <- U. apply trimEnd_idempotent.
Qed.

(** Trimming ignores white space around the input. *)
Lemma trim_padding pre s post :
  forallb is_js_space pre = true -> forallb is_js_space post = true ->
  trim (pre ++ s ++ post) = trim s.
Proof.
  intros Hpre Hpost. unfold trim. rewrite (trimStart_spaces pre _ Hpre).
  destruct (trimStart s) as [|c t] eqn:E.
  - apply trimStart_nil in E.
    assert (A : trimStart (s ++ post) = []).
    { apply trimStart_nil. now rewrite forallb_app, E, Hpost. }
    now rewrite A.
  - rewrite trimStart_app_keep by (rewrite E; discriminate).
    rewrite E. now apply trimEnd_spaces.
Qed.

(** X7: white space around the email (and, on signup, around the full
    name) changes nothing in what validation reports, on any of the three
    pages. *)
Theorem validation_ignores_padding (pre post : jsstring) :
  forallb is_js_space pre = true ->
  forallb is_js_space post = true ->
  (forall e p r,
     snd (zodResolver Login.loginSchema
            {| Login.email := pre ++ e ++ post; Login.password := p;
               Login.rememberMe := r |})
     = snd (zodResolver Login.loginSchema
              {| Login.email := e; Login.password := p; Login.rememberMe := r |}))
  /\ (forall zod e p r,
        snd (zodResolver (Login2.loginSchema zod)
               {| Login.email := pre ++ e ++ post; Login.password := p;
                  Login.rememberMe := r |})
        = snd (zodResolver (Login2.loginSchema zod)
                 {| Login.email := e; Login.password := p; Login.rememberMe := r |}))
  /\ (forall zod n e p c,
        snd (zodResolver (Signup.signupSchema zod)
               {| Signup.fullName := pre ++ n ++ post;
                  Signup.email := pre ++ e ++ post;
                  Signup.password := p; Signup.confirmPassword := c |})
        = snd (zodResolver (Signup.signupSchema zod)
                 {| Signup.fullName := n; Signup.email := e;
                    Signup.password := p; Signup.confirmPassword := c |})).
Proof.
  intros Hpre Hpost. split; [|split].
  - intros e p r. rewrite !login_errors_entries. cbn [Login.email Login.password].
    now rewrite trim_padding.
  - intros zod e p r.
    rewrite !login2_errors_entries. cbn [Login.email Login.password].
    now rewrite trim_padding.
  - intros zod n e p c. rewrite !signup_errors_entries.
    cbn [Signup.fullName Signup.email Signup.password Signup.confirmPassword].
    now rewrite !trim_padding.
Qed.

Lemma validation_ignores_padding_witness :
  forallb is_js_space (js "  ") = true
  /\ forallb is_js_space [9%N; 160%N] = true
  /\ snd (zodResolver Login.loginSchema
            {| Login.email := js "  " ++ js "user@example.com" ++ [9%N; 160%N];
               Login.password := js "Passw0rd1"; Login.rememberMe := None |})
     = snd (zodResolver Login.loginSchema
              {| Login.email := js "user@example.com";
                 Login.password := js "Passw0rd1"; Login.rememberMe := None |}).
Proof.
  split; [reflexivity|]. split; [reflexivity|].
  exact (proj1 (validation_ignores_padding (js "  ") [9%N; 160%N] eq_refl eq_refl)
           (js "user@example.com") (js "Passw0rd1") None).
Defined.

(** X8: an email (on signup also a full name) made of white space only is
    reported as missing, with the field's "required" message, on each
    page. *)
Theorem blank_field_required (blank : jsstring) :
  forallb is_js_space blank = true ->
  (forall p r,
     lookup "email"
       (snd (zodResolver Login.loginSchema
               {| Login.email := blank; Login.password := p; Login.rememberMe := r |}))
     = Some "Email is required"%string)
  /\ (forall zod p r,
        lookup "email"
          (snd (zodResolver (Login2.loginSchema zod)
                  {| Login.email := blank; Login.password := p;
                     Login.rememberMe := r |}))
        = Some "Email is required"%string)
  /\ (forall zod e p c,
        lookup "fullName"
          (snd (zodResolver (Signup.signupSchema zod)
                  {| Signup.fullName := blank; Signup.email := e;
                     Signup.password := p; Signup.confirmPassword := c |}))
        = Some "Full name is required"%string)
  /\ (forall zod n p c,
        lookup "email"
          (snd (zodResolver (Signup.signupSchema zod)
                  {| Signup.fullName := n; Signup.email := blank;
                     Signup.password := p; Signup.confirmPassword := c |}))
        = Some "Email is required"%string).
Proof.
  intros B. apply trim_nil in B. repeat split.
  - intros p r. rewrite login_errors_entries. cbn [Login.email]. now rewrite B.
  - intros zod p r. rewrite login2_errors_entries.
    cbn [Login.email]. now rewrite B.
  - intros zod e p c. rewrite signup_errors_entries. cbn [Signup.fullName].
    now rewrite B.
  - intros zod n p c. rewrite signup_errors_entries.
    cbn [Signup.fullName Signup.email]. rewrite B.
    now destruct (fullName_violation (trim n)).
Qed.

Lemma blank_field_required_witness :
  forallb is_js_space (js "   ") = true
  /\ lookup "email"
       (snd (zodResolver Login.loginSchema
               {| Login.email := js "   "; Login.password := js "Passw0rd1";
                  Login.rememberMe := None |}))
     = Some "Email is required"%string.
Proof.
  split; [reflexivity|].
  exact (proj1 (blank_field_required (js "   ") eq_refl) (js "Passw0rd1") None).
Defined.

Lemma ZodString_parse_trim rest data :
  ZodString_parse (ck_trim :: rest) data = ZodString_parse rest (trim data).
Proof. reflexivity. Qed.

Lemma ZodString_parse_trimmed rest data :
  no_trim rest = true ->
  fst (ZodString_parse (ck_trim :: rest) data) = trim data.
Proof. intros H. cbn [ZodString_parse]. now apply ZodString_parse_value. Qed.

(** X9: what the schemas hand to [onSubmit]: the email (and the full name)
    trimmed, the passwords and [rememberMe] as typed; and validating that
    output again returns it unchanged with the same issues. *)
Theorem schema_output :
  (forall v,
     fst (Login.loginSchema v)
     = {| Login.email := trim (Login.email v);
          Login.password := Login.password v;
          Login.rememberMe := Login.rememberMe v |}
     /\ Login.loginSchema (fst (Login.loginSchema v)) = Login.loginSchema v)
  /\ (forall zod v,
        fst (Signup.signupSchema zod v)
        = {| Signup.fullName := trim (Signup.fullName v);
             Signup.email := trim (Signup.email v);
             Signup.password := Signup.password v;
             Signup.confirmPassword := Signup.confirmPassword v |}
        /\ Signup.signupSchema zod (fst (Signup.signupSchema zod v))
           = Signup.signupSchema zod v).
Proof.
  split.
  - intros v.
    assert (O : forall u, fst (Login.loginSchema u)
      = {| Login.email := trim (Login.email u);
           Login.password := Login.password u;
           Login.rememberMe := Login.rememberMe u |}).
    { intros u.
      pose proof (ZodString_parse_trimmed
        (tl Login.email_schema) (Login.email u) eq_refl) as E.
      pose proof (ZodString_parse_value Login.password_schema
        (Login.password u) eq_refl) as P.
      change (ck_trim :: tl Login.email_schema) with Login.email_schema in E.
      unfold Login.loginSchema.
      destruct (ZodString_parse Login.email_schema _),
        (ZodString_parse Login.password_schema _). simpl in *. now subst. }
    split; [apply O|].
    apply injective_projections.
    + rewrite !O. cbn [Login.email Login.password Login.rememberMe].
      now rewrite trim_idempotent.
    + rewrite !loginSchema_issues, O. cbn [Login.email Login.password].
      change Login.email_schema with (ck_trim :: tl Login.email_schema).
      now rewrite !ZodString_parse_trim, trim_idempotent.
  - intros zod v.
    assert (O : forall u, fst (Signup.signupSchema zod u)
      = {| Signup.fullName := trim (Signup.fullName u);
           Signup.email := trim (Signup.email u);
           Signup.password := Signup.password u;
           Signup.confirmPassword := Signup.confirmPassword u |}).
    { intros u.
      pose proof (ZodString_parse_trimmed
        (tl Signup.fullName_schema) (Signup.fullName u) eq_refl) as Nm.
      pose proof (ZodString_parse_trimmed
        (tl (Signup.email_schema zod)) (Signup.email u) eq_refl) as E.
      pose proof (ZodString_parse_value Signup.password_schema
        (Signup.password u) eq_refl) as P.
      pose proof (ZodString_parse_value Signup.confirmPassword_schema
        (Signup.confirmPassword u) eq_refl) as C.
      change (ck_trim :: tl Signup.fullName_schema) with Signup.fullName_schema in Nm.
      change (ck_trim :: tl (Signup.email_schema zod))
        with (Signup.email_schema zod) in E.
      unfold Signup.signupSchema, Signup.signupObject.
      destruct (ZodString_parse Signup.fullName_schema _),
        (ZodString_parse (Signup.email_schema zod) _),
        (ZodString_parse Signup.password_schema _),
        (ZodString_parse Signup.confirmPassword_schema _). simpl in *. now subst. }
    split; [apply O|].
    apply injective_projections.
    + rewrite !O.
      cbn [Signup.fullName Signup.email Signup.password Signup.confirmPassword].
      now rewrite !trim_idempotent.
    + rewrite !signupSchema_issues, !signupObject_issues, O.
      cbn [Signup.fullName Signup.email Signup.password Signup.confirmPassword].
      change Signup.fullName_schema with (ck_trim :: tl Signup.fullName_schema).
      change (Signup.email_schema zod)
        with (ck_trim :: tl (Signup.email_schema zod)).
      now rewrite !ZodString_parse_trim, !trim_idempotent.
Qed.

(** ** A submit attempt, whole *)



(** X11: what a submit attempt does on the signup page, in full.  When the
    schema accepts the values: the errors are cleared, the loading flag is
    raised, the success flag is set, one success toast is shown and the
    navigation to [/login] is scheduled after 2500 ms; nothing is stored.
    Otherwise only the form's errors change, to the per-field entries. *)
Theorem signup_submit_outcome (zod : jsstring -> bool)
    (values : Signup.SignupFormData) (w : World) :
  Signup.submit zod values w
  = if accepts (Signup.signupSchema zod) values
    then (Normal tt, signup_success w)
    else (Normal tt,
          set_errors
            (field_entry "fullName"
               (fullName_violation (trim (Signup.fullName values)))
             ++ field_entry "email"
                  (zod_email_violation zod (trim (Signup.email values)))
             ++ field_entry "password"
                  (password_first_violation (Signup.password values))
             ++ field_entry "confirmPassword"
                  (confirmPassword_violation (Signup.password values)
                     (Signup.confirmPassword values)))
            w).
Proof.
  unfold Signup.submit.
  destruct (accepts (Signup.signupSchema zod) values) eqn:A.
  - rewrite (handleSubmit_accepts _ _ _ _ A). unfold Signup.onSubmit.
    change Signup.simulated_call with Fulfilled.
    now rewrite signup_onSubmit_fulfilled.
  - rewrite (handleSubmit_rejects _ _ _ _ A).
    now rewrite <- zodResolver_errors, signup_errors_entries.
Qed.

(** ** More on the password strength estimator *)

Lemma rating_by_score p : getPasswordStrength p = reference_strength p.
Proof.
  destruct p as [|c p]; [reflexivity|].
  unfold getPasswordStrength, reference_strength.
  now rewrite strength_points_reference.
Qed.

Lemma reference_score_split p :
  reference_score p
  = point (8 <=? List.length p) + point (12 <=? List.length p) + class_count p.
Proof. unfold reference_score, class_count. lia. Qed.

(** X12: a password the signup schema accepts is never rated weak: it is
    strong when it has 12 code units or more, or a character that is not
    an ASCII letter or digit, and medium otherwise. *)
Theorem accepted_password_rating (p : jsstring) :
  password_first_violation p = None ->
  getPasswordStrength p
  = if (12 <=? List.length p) || existsb (fun c => negb (is_alphanumeric c)) p
    then strong else medium.
Proof.
  intros H. apply password_first_violation_none in H
    as (_ & [L _] & U & Lw & D).
  rewrite <- existsb_exists in U, Lw, D.
  rewrite rating_by_score. unfold reference_strength, reference_score.
  rewrite U, Lw, D. apply Nat.leb_le in L. rewrite L.
  destruct (12 <=? List.length p),
    (existsb (fun c => negb (is_alphanumeric c)) p); reflexivity.
Qed.

Lemma accepted_password_rating_witness :
  password_first_violation (js "Abcdef12") = None
  /\ getPasswordStrength (js "Abcdef12") = medium.
Proof.
  split; [reflexivity|].
  exact (accepted_password_rating (js "Abcdef12") eq_refl).
Defined.

(** X13: appending characters to a password never lowers its rating. *)
Theorem rating_monotone (p q : jsstring) :
  rank (getPasswordStrength p) <= rank (getPasswordStrength (p ++ q)).
Proof.
  rewrite !rating_by_score. unfold reference_strength.
  pose proof (strength_points_app p q) as H.
  rewrite !strength_points_reference in H.
  destruct (Nat.leb_spec (reference_score p) 2),
    (Nat.leb_spec (reference_score p) 4),
    (Nat.leb_spec (reference_score (p ++ q)) 2),
    (Nat.leb_spec (reference_score (p ++ q)) 4); simpl; lia.
Qed.

Lemma existsb_permutation {A} (f : A -> bool) (p q : list A) :
  Permutation p q -> existsb f p = existsb f q.
Proof.
  intros H. apply eq_true_iff_eq. rewrite !existsb_exists. split.
  - intros (x & I & F). exists x. split; [|exact F].
    now apply (Permutation_in _ H).
  - intros (x & I & F). exists x. split; [|exact F].
    now apply (Permutation_in _ (Permutation_sym H)).
Qed.

(** X14: the rating of a password does not depend on the order of its
    characters. *)
Theorem rating_permutation (p q : jsstring) :
  Permutation p q -> getPasswordStrength p = getPasswordStrength q.
Proof.
  intros H. rewrite !rating_by_score.
  unfold reference_strength, reference_score.
  rewrite (Permutation_length H).
  now rewrite !(existsb_permutation _ p q H).
Qed.

Lemma rating_permutation_witness :
  Permutation (js "Ab1!") (js "!1bA")
  /\ getPasswordStrength (js "Ab1!") = getPasswordStrength (js "!1bA").
Proof.
  assert (P : Permutation (js "Ab1!") (js "!1bA")).
  { change (Permutation (js "Ab1!") (rev (js "Ab1!"))). apply Permutation_rev. }
  split; [exact P|]. exact (rating_permutation _ _ P).
Defined.

(** X15: a strong rating needs at least three of the four character
    classes, and with exactly three of them at least 12 code units. *)
Theorem strong_needs_three_classes (p : jsstring) :
  getPasswordStrength p = strong ->
  3 <= class_count p /\ (class_count p = 3 -> 12 <= List.length p).
Proof.
  rewrite rating_by_score. unfold reference_strength.
  rewrite reference_score_split.
  destruct (Nat.leb_spec 8 (List.length p)),
    (Nat.leb_spec 12 (List.length p)); cbn [point];
    repeat match goal with
           | |- context [if ?b then _ else _] => destruct b eqn:?
           end; try discriminate; intros _;
    repeat match goal with
           | H : (_ <=? _) = _ |- _ =>
               first [apply Nat.leb_le in H | apply Nat.leb_gt in H]
           end; lia.
Qed.

Lemma strong_needs_three_classes_witness :
  getPasswordStrength (js "Abc123!@#xyz") = strong
  /\ 3 <= class_count (js "Abc123!@#xyz").
Proof.
  split; [reflexivity|].
  exact (proj1 (strong_needs_three_classes (js "Abc123!@#xyz") eq_refl)).
Defined.

(** ** The theme toggle *)

Lemma toggleTheme_flag n t0 :
  isDarkMode (Nat.iter n toggleTheme t0) = xorb (isDarkMode t0) (Nat.odd n).
Proof.
  induction n as [|n IH].
  - simpl. now destruct (isDarkMode t0).
  - change (Nat.iter (S n) toggleTheme t0)
      with (toggleTheme (Nat.iter n toggleTheme t0)).
    unfold toggleTheme at 1. cbn [isDarkMode].
    rewrite IH, Nat.odd_succ, <- Nat.negb_odd.
    now destruct (isDarkMode t0), (Nat.odd n).
Qed.

(** X16: after any number of toggles, at least one, the [data-theme]
    attribute of the body agrees with the page's flag (dark exactly when
    [isDarkMode]), and the flag has flipped exactly when the number of
    toggles is odd. *)
Theorem toggleTheme_agrees (n : nat) (t0 : Theme) :
  let t := Nat.iter (S n) toggleTheme t0 in
  body_data_theme t = Some (container_data_theme t)
  /\ isDarkMode t = xorb (isDarkMode t0) (Nat.odd (S n)).
Proof.
  cbn zeta. split; [|apply toggleTheme_flag].
  change (Nat.iter (S n) toggleTheme t0)
    with (toggleTheme (Nat.iter n toggleTheme t0)).
  reflexivity.
Qed.

(** ** The strength indicator *)

Lemma strength_effect_fold history :
  forall st,
    fold_left (fun st pw => strength_effect pw st) history st
    = match last (filter nonempty history) [] with
      | [] => st
      | c :: pw => getPasswordStrength (c :: pw)
      end.
Proof.
  induction history as [|pw history IH]; intros st; [reflexivity|].
  cbn [fold_left filter]. rewrite IH.
  destruct pw as [|c pw]; cbn [nonempty strength_effect]; [reflexivity|].
  destruct (filter nonempty history) as [|x l] eqn:F; [reflexivity|].
  change (last ((c :: pw) :: x :: l) []) with (last (x :: l) []).
  destruct (last (x :: l) []) eqn:La; [|reflexivity].
  exfalso.
  assert (I : In [] (filter nonempty history)).
  { rewrite F, <- La.
    destruct (@exists_last _ (x :: l)) as (l' & y & E); [discriminate|].
    rewrite E, last_last. apply in_or_app. right. now left. }
  apply filter_In in I as [_ I]. discriminate.
Qed.

(** X17: the rating the signup page holds is, at any time, the rating of
    the most recent non-empty value of the password ([weak] before any):
    clearing the field leaves the previous rating in place. *)
Theorem strength_shown_last (history : list jsstring) :
  strength_shown history
  = getPasswordStrength (last (filter nonempty history) []).
Proof.
  unfold strength_shown. rewrite strength_effect_fold.
  now destruct (last (filter nonempty history) []).
Qed.

(** ** The stored flag *)







(** ** What the handlers leave alone *)

(** X19: [onSubmit] never uses the credentials.  On the login pages its
    whole outcome (completion, state, stored flag, effects) depends on the
    submitted values through [rememberMe] only, whatever the awaited call
    does; on the signup page it does not depend on them at all.  No email,
    name or password reaches local storage, a toast or the console. *)
Theorem credentials_not_used (apiCall : Settled) (w : World) :
  (forall e1 p1 e2 p2 r,
     Login.onSubmit_with apiCall
       {| Login.email := e1; Login.password := p1; Login.rememberMe := r |} w
     = Login.onSubmit_with apiCall
         {| Login.email := e2; Login.password := p2; Login.rememberMe := r |} w)
  /\ (forall d1 d2 : Signup.SignupFormData,
        Signup.onSubmit_with apiCall d1 w = Signup.onSubmit_with apiCall d2 w).
Proof.
  split.
  - intros e1 p1 e2 p2 r. destruct apiCall as [|reason].
    + now rewrite !login_onSubmit_fulfilled.
    + now rewrite !login_onSubmit_rejected.
  - intros d1 d2. destruct apiCall as [|reason].
    + now rewrite !signup_onSubmit_fulfilled.
    + now rewrite !signup_onSubmit_rejected.
Qed.

Lemma login_password_entry values :
  lookup "password" (snd (zodResolver Login.loginSchema values))
  = login_password_violation (Login.password values).
Proof.
  rewrite login_errors_entries.
  destruct (login_email_violation _), (login_password_violation _); reflexivity.
Qed.

Lemma login2_password_entry zod values :
  lookup "password" (snd (zodResolver (Login2.loginSchema zod) values))
  = login2_password_violation (Login.password values).
Proof.
  rewrite login2_errors_entries.
  destruct (zod_email_violation _ _), (login2_password_violation _); reflexivity.
Qed.

Lemma signup_password_entry zod values :
  lookup "password" (snd (zodResolver (Signup.signupSchema zod) values))
  = password_first_violation (Signup.password values).
Proof.
  rewrite signup_errors_entries.
  destruct (fullName_violation _), (zod_email_violation _ _),
    (password_first_violation _), (confirmPassword_violation _ _); reflexivity.
Qed.

(** X20: a password on which the signup form reports no error is never
    reported by the second login form, and is reported by the first login
    form exactly when it has more than 15 code units: signup admits up to
    100. *)
Theorem signup_password_at_login (zod zod' : jsstring -> bool)
    (signup : Signup.SignupFormData) (login : Login.LoginFormData) :
  Login.password login = Signup.password signup ->
  lookup "password" (snd (zodResolver (Signup.signupSchema zod) signup)) = None ->
  lookup "password" (snd (zodResolver (Login2.loginSchema zod') login)) = None
  /\ (lookup "password" (snd (zodResolver Login.loginSchema login)) = None
      <-> List.length (Login.password login) <= 15).
Proof.
  intros E H. rewrite signup_password_entry in H.
  apply password_first_violation_none in H as (_ & [L8 L100] & _).
  rewrite login2_password_entry, login_password_entry, E.
  rewrite login2_password_violation_none, login_password_violation_none.
  split; [lia|]. split; lia.
Qed.

Lemma signup_password_at_login_witness :
  Login.password long_password_login = Signup.password long_password_signup
  /\ lookup "password"
       (snd (zodResolver (Signup.signupSchema (regex_test Login.EMAIL_REGEX))
               long_password_signup)) = None
  /\ lookup "password"
       (snd (zodResolver (Login2.loginSchema (regex_test Login.EMAIL_REGEX))
               long_password_login)) = None
  /\ lookup "password" (snd (zodResolver Login.loginSchema long_password_login))
     = Some "Password must be at most 15 characters"%string.
Proof.
  split; [reflexivity|]. split; [reflexivity|]. split; [|reflexivity].
  exact (proj1 (signup_password_at_login
                  (regex_test Login.EMAIL_REGEX) (regex_test Login.EMAIL_REGEX)
                  long_password_signup long_password_login eq_refl eq_refl)).
Defined.
